(** * progorm-connection: the connection manager of [connection/connection.go]

    A shallow embedding of package [connection]: the [connectionManager]
    struct, its constructors and its five methods, followed by the
    properties of the manager that the specification states.

    The collaborators (gorm, database/sql, log) are not part of the package.
    They appear as an interface ([Gorm]) whose methods are arbitrary
    functions, and every call made to them is recorded in an event log, so
    that "the open operation ran once" or "the sync engine received this
    batch" are statements about that log. *)

From Stdlib Require Import ZArith List Ascii String.
From stdpp Require Import base option list gmap strings.

Module connection.

Open Scope string_scope.
Open Scope list_scope.

(** ** Values exchanged with the collaborators *)

(** Go [error] values seen by the package; the interface value [nil] is
    [None] in [option error].  [ErrConnectionClosed] is the package variable
    created by [errors.New]; an error made by a collaborator is another
    value, whatever its message. *)
Inductive error : Type :=
| ErrConnectionClosed
| LibError (msg : string).

Definition Error (e : error) : string :=
  match e with
  | ErrConnectionClosed => "db connection closed"
  | LibError msg => msg
  end.

(** [gorm.Dialector]: the dynamic value behind the interface, with the
    result of its [Name()] method.  The nil interface is [None]. *)
Record Dialector : Type := mkDialector { Name : string; DSN : string }.

(** [logger.LogLevel] of gorm.io/gorm/logger. *)
Inductive logger_LogLevel : Type := logger_Silent | logger_Error | logger_Warn | logger_Info.

(** [io.Writer] values. *)
Inductive Writer : Type := os_Stdout | os_Stderr | other_Writer (id : string).

(** [log.New(out, prefix, flag)]. *)
Record log_Logger : Type := log_New { log_out : Writer; log_prefix : string; log_flag : Z }.

(** [log.LstdFlags = Ldate | Ltime]. *)
Definition log_LstdFlags : Z := Z.lor 1 2.

(** [time.Duration] counts nanoseconds. *)
Definition time_Second : Z := 1000000000.

(** [logger.Config]. *)
Record logger_Config : Type := mkLoggerConfig
  { SlowThreshold : Z; LogLevel : logger_LogLevel; Colorful : bool }.

(** [logger.New(writer, config)]. *)
Record logger_Interface : Type := logger_New
  { logger_writer : log_Logger; logger_config : logger_Config }.

(** [gorm.Config]: the logger, the embedded [Dialector] interface (the
    receiver of [config.Name()]), and the remaining settings, which the
    package never reads. *)
Record gorm_Config : Type := mkConfig
  { Logger : option logger_Interface;
    cfg_Dialector : option Dialector;
    cfg_settings : string }.

(** Pointers to [gorm.DB] and to [sql.DB] are addresses; nil is [None]. *)
Definition gorm_DB : Type := positive.
Definition sql_DB : Type := positive.

(** [reflect.Type] identities, written as the qualified type name. *)
Definition rtype : Type := string.

(** An [interface{}] argument: the nil interface, or a dynamic type with a
    value. *)
Inductive iface : Type :=
| nil_iface
| Val (t : rtype) (v : string).

(** A call either returns or panics. *)
Inductive outcome (A : Type) : Type :=
| Returns (a : A)
| Panics (msg : string).
Arguments Returns {A} a.
Arguments Panics {A} msg.

(** [reflect.ValueOf(table).Type()]: [ValueOf] of the nil interface is the
    zero [Value], on which [Type] panics. *)
Definition reflect_ValueOf_Type (table : iface) : outcome rtype :=
  match table with
  | nil_iface => Panics "reflect: call of reflect.Value.Type on zero Value"
  | Val t _ => Returns t
  end.

(** ** Calls to the collaborators *)

Inductive Event : Type :=
| EvOpen (d : option Dialector) (cfg : option gorm_Config)
| EvDB (db : gorm_DB)
| EvSetMaxIdleConns (s : sql_DB) (n : Z)
| EvSetMaxOpenConns (s : sql_DB) (n : Z)
| EvAutoMigrate (db : gorm_DB) (batch : list iface)
| EvPrintf (line : string)
| EvFatalf (line : string).

(** What [gorm.Open] returns: a handle with a nil error, or an error with
    whatever handle gorm hands back (possibly nil). *)
Inductive OpenResult : Type :=
| Opened (db : gorm_DB)
| OpenFailed (db : option gorm_DB) (err : error).

(** [gorm.Open] receives the configuration by pointer, so the call may
    write to it: [open_config] is the pointee when the call returns. *)
Record OpenOutcome : Type := mkOpen
  { open_result : OpenResult; open_config : option gorm_Config }.

(** What the method [DB()] of a gorm handle returns. *)
Inductive DBResult : Type :=
| DBOk (s : sql_DB)
| DBFailed (err : error).

(** The collaborator: each method may depend on the calls made so far.
    Every method returns; a panic raised inside gorm is not modelled. *)
Class Gorm : Type := mkGorm
  { gorm_Open : list Event -> option Dialector -> option gorm_Config -> OpenOutcome;
    DB_DB : list Event -> gorm_DB -> DBResult;
    DB_AutoMigrate : list Event -> gorm_DB -> list iface -> option error }.

(** ** The manager *)

Record connectionManager : Type := mkManager
  { dialector : option Dialector;
    config : option gorm_Config;
    connStr : string;
    db : option gorm_DB;
    once : bool;
    migratedTables : gmap rtype bool }.

Definition open_db (r : OpenResult) : option gorm_DB :=
  match r with
  | Opened h => Some h
  | OpenFailed h _ => h
  end.

(** A write through a pointer changes the pointee, never the pointer. *)
Definition pointee_after (before after : option gorm_Config) : option gorm_Config :=
  match before, after with
  | Some _, Some cfg => Some cfg
  | _, _ => before
  end.

(** ** Callers

    A client of the [Manager] interface issues calls one after the other;
    a call that panics leaves the manager as the panic found it, and a
    caller that recovers may go on using it. *)

Inductive Op : Type :=
| OpGetConnection
| OpAutoMigrate (tables : list iface)
| OpAutoMigrateOrWarn (tables : list iface)
| OpDialect
| OpConnString.

Inductive Reply : Type :=
| RConn (h : option gorm_DB) (err : option error)
| RMigrate (r : outcome (option error))
| RWarn (r : outcome unit)
| RDialect (r : outcome string)
| RConnString (s : string).

(** Readings of the event log. *)
Fixpoint count_opens (w : list Event) : nat :=
  match w with
  | [] => 0
  | EvOpen _ _ :: rest => S (count_opens rest)
  | _ :: rest => count_opens rest
  end.

Fixpoint pool_calls (w : list Event) : list Event :=
  match w with
  | [] => []
  | EvSetMaxIdleConns s n :: rest => EvSetMaxIdleConns s n :: pool_calls rest
  | EvSetMaxOpenConns s n :: rest => EvSetMaxOpenConns s n :: pool_calls rest
  | _ :: rest => pool_calls rest
  end.

Fixpoint sync_batches (w : list Event) : list (list iface) :=
  match w with
  | [] => []
  | EvAutoMigrate _ batch :: rest => batch :: sync_batches rest
  | _ :: rest => sync_batches rest
  end.

(** The type identity [t] is marked as migrated. *)
Definition marked (m : gmap rtype bool) (t : rtype) : Prop := m !! t = Some true.

(** Some element of [tables] has type identity [t]. *)
Definition passes (tables : list iface) (t : rtype) : Prop :=
  exists v, In (Val t v) tables.

(** The type identities of the non-nil tables, in order. *)
Fixpoint table_types (tables : list iface) : list rtype :=
  match tables with
  | [] => []
  | nil_iface :: rest => table_types rest
  | Val t _ :: rest => t :: table_types rest
  end.

(** The tables that come before the first nil interface. *)
Fixpoint before_nil (tables : list iface) : list iface :=
  match tables with
  | [] => []
  | nil_iface :: _ => []
  | table :: rest => table :: before_nil rest
  end.

(** [x] has type identity [t]. *)
Definition type_is (t : rtype) (x : iface) : bool :=
  match x with
  | nil_iface => false
  | Val t' _ => bool_decide (t' = t)
  end.

(** [x], passed after the tables [pre], is the first table of its type and
    that type is not marked in [m]. *)
Definition first_unmarked (m : gmap rtype bool) (pre : list iface) (x : iface) : bool :=
  match x with
  | nil_iface => false
  | Val t _ => negb (default false (m !! t)) && negb (existsb (type_is t) pre)
  end.

(** The tables, in the order passed, that are the first of their type among
    [pre ++ tables] and whose type [m] has not marked. *)
Fixpoint pending_from (m : gmap rtype bool) (pre tables : list iface) : list iface :=
  match tables with
  | [] => []
  | x :: rest =>
      (if first_unmarked m pre x then [x] else []) ++ pending_from m (pre ++ [x]) rest
  end.

(** The lines written with [log.Printf]. *)
Fixpoint printed (w : list Event) : list string :=
  match w with
  | [] => []
  | EvPrintf line :: rest => line :: printed rest
  | _ :: rest => printed rest
  end.

(** The configuration the constructor works with: the caller's, or the
    default when the caller passed nil. *)
Definition config_or_default (config0 : option gorm_Config) (fallback : gorm_Config)
  : gorm_Config :=
  match config0 with
  | None => fallback
  | Some cfg => cfg
  end.

(** [database/sql]: "If n <= 0, then there is no limit on the number of open
    connections." *)
Definition sql_no_limit (n : Z) : bool := (n <=? 0)%Z.

Section Manager.

Context `{G : Gorm}.

(** The closure [execOnceOnlyFunc] of [GetConnection]: it assigns [c.db]
    and the variable [err] of the call that runs it. *)
Definition execOnceOnlyFunc (c : connectionManager) (w : list Event)
  : connectionManager * list Event * option error :=
  let o := gorm_Open w (dialector c) (config c) in
  let w1 := w ++ [EvOpen (dialector c) (config c)] in
  let c1 := mkManager (dialector c) (pointee_after (config c) (open_config o))
              (connStr c) (open_db (open_result o)) (once c) (migratedTables c) in
  match open_result o with
  | OpenFailed _ err => (c1, w1, Some err)
  | Opened h =>
      let w2 := w1 ++ [EvDB h] in
      match DB_DB w1 h with
      | DBFailed err => (c1, w2, Some err)
      | DBOk sqlDB =>
          (c1, w2 ++ [EvSetMaxIdleConns sqlDB 10; EvSetMaxOpenConns sqlDB (-1)], None)
      end
  end.

(** [c.once.Do(f)]: runs [f] unless the gate is already closed, and closes
    it.  [err] starts as nil in every call of [GetConnection]. *)
Definition GetConnection (c : connectionManager) (w : list Event)
  : (option gorm_DB * option error) * connectionManager * list Event :=
  if once c then ((db c, None), c, w)
  else
    let '(c1, w1, err) := execOnceOnlyFunc c w in
    let c2 := mkManager (dialector c1) (config c1) (connStr c1) (db c1) true
                (migratedTables c1) in
    ((db c2, err), c2, w1).

(** The loop of [AutoMigrate] over [tables]: the map after the loop (also
    when it panics part of the way) and the pending list. *)
Fixpoint collectUnmigrated (tables : list iface) (migrated : gmap rtype bool)
    (unmigratedTables : list iface) : gmap rtype bool * outcome (list iface) :=
  match tables with
  | [] => (migrated, Returns unmigratedTables)
  | table :: rest =>
      match reflect_ValueOf_Type table with
      | Panics msg => (migrated, Panics msg)
      | Returns t =>
          if negb (default false (migrated !! t))
          then collectUnmigrated rest (<[t := true]> migrated) (unmigratedTables ++ [table])
          else collectUnmigrated rest migrated unmigratedTables
      end
  end.

Definition set_migratedTables (c : connectionManager) (m : gmap rtype bool)
  : connectionManager :=
  mkManager (dialector c) (config c) (connStr c) (db c) (once c) m.

Definition AutoMigrate (c : connectionManager) (w : list Event) (tables : list iface)
  : outcome (option error) * connectionManager * list Event :=
  match db c with
  | None => (Returns (Some ErrConnectionClosed), c, w)
  | Some h =>
      let '(migrated, pending) := collectUnmigrated tables (migratedTables c) [] in
      let c1 := set_migratedTables c migrated in
      match pending with
      | Panics msg => (Panics msg, c1, w)
      | Returns unmigratedTables =>
          (Returns (DB_AutoMigrate w h unmigratedTables), c1,
           w ++ [EvAutoMigrate h unmigratedTables])
      end
  end.

(** [log.Printf("%v\n", err)]. *)
Definition printf_line (err : error) : string := String.append (Error err) (String "010"%char "").

Definition AutoMigrateOrWarn (c : connectionManager) (w : list Event) (tables : list iface)
  : outcome unit * connectionManager * list Event :=
  match AutoMigrate c w tables with
  | (Panics msg, c1, w1) => (Panics msg, c1, w1)
  | (Returns None, c1, w1) => (Returns tt, c1, w1)
  | (Returns (Some err), c1, w1) => (Returns tt, c1, w1 ++ [EvPrintf (printf_line err)])
  end.

Definition nil_dereference : string :=
  "runtime error: invalid memory address or nil pointer dereference".

(** [c.config.Name()]: the method promoted from the [Dialector] embedded in
    [gorm.Config]. *)
Definition Dialect (c : connectionManager) : outcome string :=
  match config c with
  | None => Panics nil_dereference
  | Some cfg =>
      match cfg_Dialector cfg with
      | None => Panics nil_dereference
      | Some d => Returns (Name d)
      end
  end.

Definition ConnString (c : connectionManager) : string := connStr c.

(** ** Construction *)

Definition defaultLogger : logger_Interface :=
  logger_New (log_New os_Stdout (String "013"%char (String "010"%char "")) log_LstdFlags)
             (mkLoggerConfig time_Second logger_Error true).

(** [&gorm.Config{Logger: defaultLogger}]. *)
Definition defaultConfig : gorm_Config := mkConfig (Some defaultLogger) None "".

Definition NewBaseConnectionManager (connStr0 : string) (dialector0 : option Dialector)
    (config0 : option gorm_Config)
  : (connectionManager * option error) * list Event :=
  let connMan := mkManager dialector0 config0 connStr0 None false ∅ in
  let connMan1 :=
    match config connMan with
    | None => mkManager (dialector connMan) (Some defaultConfig) (connStr connMan)
                (db connMan) (once connMan) (migratedTables connMan)
    | Some _ => connMan
    end in
  let '(_, err, connMan2, w) := GetConnection connMan1 [] in
  ((connMan2, err), w).

(** [log.Fatalf] writes the line and calls [os.Exit(1)]. *)
Inductive startup : Type :=
| Started (m : connectionManager)
| Aborted (exit_code : Z).

Definition fatal_line (err : error) : string :=
  String.append "failed to connect to database: " (Error err).

Definition MustNewBaseConnectionManager (connStr0 : string) (dialector0 : option Dialector)
    (config0 : option gorm_Config) : startup * list Event :=
  let '(connMan, err, w) := NewBaseConnectionManager connStr0 dialector0 config0 in
  match err with
  | Some e => (Aborted 1, w ++ [EvFatalf (fatal_line e)])
  | None => (Started connMan, w)
  end.

(** ** Sequences of calls *)

Definition call (op : Op) (c : connectionManager) (w : list Event)
  : Reply * connectionManager * list Event :=
  match op with
  | OpGetConnection =>
      let '(h, err, c1, w1) := GetConnection c w in (RConn h err, c1, w1)
  | OpAutoMigrate tables =>
      let '(r, c1, w1) := AutoMigrate c w tables in (RMigrate r, c1, w1)
  | OpAutoMigrateOrWarn tables =>
      let '(r, c1, w1) := AutoMigrateOrWarn c w tables in (RWarn r, c1, w1)
  | OpDialect => (RDialect (Dialect c), c, w)
  | OpConnString => (RConnString (ConnString c), c, w)
  end.

Fixpoint run (ops : list Op) (c : connectionManager) (w : list Event)
  : list Reply * connectionManager * list Event :=
  match ops with
  | [] => ([], c, w)
  | op :: rest =>
      let '(r, c1, w1) := call op c w in
      let '(rs, c2, w2) := run rest c1 w1 in
      (r :: rs, c2, w2)
  end.

(** The error of one run of the closure, read off the collaborator. *)
Definition attempt_error (w : list Event) (d : option Dialector)
    (cfg : option gorm_Config) : option error :=
  match open_result (gorm_Open w d cfg) with
  | OpenFailed _ e => Some e
  | Opened h =>
      match DB_DB (w ++ [EvOpen d cfg]) h with
      | DBFailed e => Some e
      | DBOk _ => None
      end
  end.

End Manager.

(** ** Relations between states of the manager and of the log *)

(** What a call may change besides the set of migrated types. *)
Definition same_connection (c c1 : connectionManager) : Prop :=
  dialector c1 = dialector c /\ config c1 = config c /\ connStr c1 = connStr c /\
  db c1 = db c /\ once c1 = once c.

(** Entries are added, never removed, and a mark stays. *)
Definition grows (m m' : gmap rtype bool) : Prop :=
  forall t, (is_Some (m !! t) -> is_Some (m' !! t)) /\ (marked m t -> marked m' t).

(** The events open nothing and touch no pool setting. *)
Definition no_open (evs : list Event) : Prop :=
  count_opens evs = 0 /\ pool_calls evs = [].

(** Every batch in the events holds only types that [m] has not marked. *)
Definition fresh_batches (m : gmap rtype bool) (evs : list Event) : Prop :=
  forall batch t, In batch (sync_batches evs) -> passes batch t -> ~ marked m t.

(** * Concrete collaborators, managers and tables *)

(** ** Collaborators *)

Definition dsn : string := "host=localhost user=app dbname=app port=5432".

Definition postgres : Dialector := mkDialector "postgres" dsn.
Definition mysql : Dialector := mkDialector "mysql" "app@tcp(127.0.0.1:3306)/app".

Definition refused : error :=
  LibError "dial tcp 127.0.0.1:5432: connect: connection refused".

Definition denied : error := LibError "ERROR: permission denied for schema public".

(** A database that accepts the connection.  [gorm.Open] applies the
    configuration to a [Config] of its own and leaves the caller's as it
    was, as releases of gorm that copy the options into a fresh [Config]
    do. *)
Definition reachable : Gorm :=
  mkGorm (fun _ _ cfg => mkOpen (Opened 1%positive) cfg)
         (fun _ _ => DBOk 2%positive)
         (fun _ _ _ => None).

(** A dialector whose open always fails; gorm hands back the handle it had
    built. *)
Definition unreachable : Gorm :=
  mkGorm (fun _ _ cfg => mkOpen (OpenFailed (Some 1%positive) refused) cfg)
         (fun _ _ => DBFailed (LibError "invalid db"))
         (fun _ _ _ => None).

(** An open that fails and hands back a nil handle. *)
Definition unopened : Gorm :=
  mkGorm (fun _ _ cfg => mkOpen (OpenFailed None refused) cfg)
         (fun _ _ => DBFailed (LibError "invalid db"))
         (fun _ _ _ => None).

(** A reachable database whose sync engine fails on every batch. *)
Definition failing_sync : Gorm :=
  mkGorm (fun _ _ cfg => mkOpen (Opened 1%positive) cfg)
         (fun _ _ => DBOk 2%positive)
         (fun _ _ _ => Some denied).

(** [gorm.Open] as in the releases of gorm that work on the [Config] they
    are given: a non-nil dialector is stored in it ([config.Dialector =
    dialector]), a nil one leaves it alone. *)
Definition in_place : Gorm :=
  mkGorm (fun _ d cfg =>
            mkOpen (Opened 1%positive)
                   (option_map (fun k => mkConfig (Logger k)
                                           (match d with
                                            | Some _ => d
                                            | None => cfg_Dialector k
                                            end)
                                           (cfg_settings k)) cfg))
         (fun _ _ => DBOk 2%positive)
         (fun _ _ _ => None).

(** ** Managers and tables *)

Definition fresh_manager : connectionManager :=
  mkManager (Some postgres) (Some defaultConfig) dsn None false ∅.

Definition ready_manager : connectionManager :=
  mkManager (Some postgres) (Some defaultConfig) dsn (Some 1%positive) true ∅.

Definition ready_log : list Event :=
  [EvOpen (Some postgres) (Some defaultConfig); EvDB 1%positive;
   EvSetMaxIdleConns 2%positive 10; EvSetMaxOpenConns 2%positive (-1)].

Definition refused_manager : connectionManager :=
  mkManager (Some postgres) (Some defaultConfig) dsn (Some 1%positive) true ∅.

Definition refused_log : list Event := [EvOpen (Some postgres) (Some defaultConfig)].

Definition unopened_manager : connectionManager :=
  mkManager (Some postgres) (Some defaultConfig) dsn None true ∅.

Definition User : iface := Val "*models.User" "&User{}".
Definition Order : iface := Val "*models.Order" "&Order{}".
Definition Invoice : iface := Val "*models.Invoice" "&Invoice{}".

Definition migrated_after (ts : list rtype) : gmap rtype bool :=
  fold_left (fun m t => <[t := true]> m) ts ∅.

Definition with_migrated (c : connectionManager) (ts : list rtype) : connectionManager :=
  set_migratedTables c (migrated_after ts).

(** * Properties *)

Section Properties.

Context `{G : Gorm}.

(** ** The event log *)

Lemma count_opens_app (w1 w2 : list Event) :
  count_opens (w1 ++ w2) = count_opens w1 + count_opens w2.
Proof.
  induction w1 as [|ev w1 IH]; simpl; [reflexivity|].
  destruct ev; simpl; rewrite IH; reflexivity.
Qed.

Lemma pool_calls_app (w1 w2 : list Event) :
  pool_calls (w1 ++ w2) = pool_calls w1 ++ pool_calls w2.
Proof.
  induction w1 as [|ev w1 IH]; simpl; [reflexivity|].
  destruct ev; simpl; rewrite IH; reflexivity.
Qed.

Lemma sync_batches_app (w1 w2 : list Event) :
  sync_batches (w1 ++ w2) = sync_batches w1 ++ sync_batches w2.
Proof.
  induction w1 as [|ev w1 IH]; simpl; [reflexivity|].
  destruct ev; simpl; rewrite IH; reflexivity.
Qed.

(** ** The one-time gate *)

Lemma same_connection_refl (c : connectionManager) : same_connection c c.
Proof. repeat split. Qed.

Lemma same_connection_trans (c c1 c2 : connectionManager) :
  same_connection c c1 -> same_connection c1 c2 -> same_connection c c2.
Proof.
  unfold same_connection. intros (?&?&?&?&?) (?&?&?&?&?).
  repeat split; congruence.
Qed.

Lemma GetConnection_closed_gate (c : connectionManager) (w : list Event) :
  once c = true -> GetConnection c w = ((db c, None), c, w).
Proof. intros Hdone. unfold GetConnection. rewrite Hdone. reflexivity. Qed.

Lemma execOnceOnlyFunc_log (c c1 : connectionManager) (w w1 : list Event)
    (err : option error) :
  execOnceOnlyFunc c w = (c1, w1, err) ->
  exists rest, w1 = w ++ EvOpen (dialector c) (config c) :: rest /\ count_opens rest = 0.
Proof.
  unfold execOnceOnlyFunc.
  destruct (open_result (gorm_Open w (dialector c) (config c))) as [h|h e].
  - destruct (DB_DB _ h) as [s|e]; intros [= <- <- <-].
    + eexists. rewrite <- !app_assoc. simpl. split; reflexivity.
    + eexists. rewrite <- !app_assoc. simpl. split; reflexivity.
  - intros [= <- <- <-]. exists []. split; reflexivity.
Qed.

Lemma execOnceOnlyFunc_frame (c c1 : connectionManager) (w w1 : list Event)
    (err : option error) :
  execOnceOnlyFunc c w = (c1, w1, err) ->
  dialector c1 = dialector c /\ connStr c1 = connStr c /\ once c1 = once c /\
  migratedTables c1 = migratedTables c /\
  db c1 = open_db (open_result (gorm_Open w (dialector c) (config c))) /\
  config c1 = pointee_after (config c) (open_config (gorm_Open w (dialector c) (config c))).
Proof.
  unfold execOnceOnlyFunc.
  destruct (open_result (gorm_Open w (dialector c) (config c))) as [h|h e] eqn:Hopen.
  - destruct (DB_DB _ h) as [s|e]; intros [= <- <- <-]; simpl; repeat split.
  - intros [= <- <- <-]. simpl. repeat split.
Qed.

Lemma GetConnection_open_gate (c c1 : connectionManager) (w w1 : list Event)
    (h : option gorm_DB) (err : option error) :
  once c = false ->
  GetConnection c w = ((h, err), c1, w1) ->
  once c1 = true /\ h = db c1 /\ count_opens w1 = S (count_opens w) /\
  connStr c1 = connStr c /\ dialector c1 = dialector c /\
  migratedTables c1 = migratedTables c.
Proof.
  intros Hopen. unfold GetConnection. rewrite Hopen.
  destruct (execOnceOnlyFunc c w) as [[c0 w0] e0] eqn:Hexec.
  intros [= <- <- <- <-]. simpl.
  destruct (execOnceOnlyFunc_log _ _ _ _ _ Hexec) as (rest & -> & Hrest).
  destruct (execOnceOnlyFunc_frame _ _ _ _ _ Hexec) as (Hd & Hs & _ & Hm & _ & _).
  rewrite count_opens_app. simpl. rewrite Hrest.
  repeat split; try assumption. lia.
Qed.

(** ** The set of migrated types *)

Lemma marked_default (m : gmap rtype bool) (t : rtype) :
  default false (m !! t) = true <-> marked m t.
Proof.
  unfold marked. destruct (m !! t) as [[|]|]; simpl; split; congruence.
Qed.

Lemma marked_insert (m : gmap rtype bool) (t t0 : rtype) :
  marked m t0 -> marked (<[t := true]> m) t0.
Proof.
  unfold marked. intros Hm. destruct (decide (t = t0)) as [->|Hne].
  - apply lookup_insert_eq.
  - rewrite lookup_insert_ne; assumption.
Qed.

Lemma passes_cons (x : iface) (tables : list iface) (t : rtype) :
  passes (x :: tables) t <-> (exists v, x = Val t v) \/ passes tables t.
Proof.
  unfold passes. simpl. split.
  - intros [v [Hx|Hin]]; eauto.
  - intros [[v ->]|[v Hin]]; eauto.
Qed.

(** The loop only adds entries, and only with the value [true]. *)
Lemma collectUnmigrated_keeps (tables : list iface) :
  forall (m m' : gmap rtype bool) (acc : list iface) (o : outcome (list iface)),
    collectUnmigrated tables m acc = (m', o) ->
    forall t, (is_Some (m !! t) -> is_Some (m' !! t)) /\ (marked m t -> marked m' t).
Proof.
  induction tables as [|table rest IH]; simpl; intros m m' acc o Hrun t.
  - injection Hrun as <- _. tauto.
  - destruct table as [|t0 v]; simpl in Hrun.
    + injection Hrun as <- _. tauto.
    + destruct (negb (default false (m !! t0))).
      * destruct (IH _ _ _ _ Hrun t) as [Hsome Hmark]. split.
        -- intros Hin. apply Hsome. destruct (decide (t0 = t)) as [->|Hne].
           ++ rewrite lookup_insert_eq. eauto.
           ++ rewrite lookup_insert_ne; assumption.
        -- intros Hin. apply Hmark, marked_insert, Hin.
      * exact (IH _ _ _ _ Hrun t).
Qed.

(** When the loop completes, the pending list extends the accumulator with
    tables whose type was unmarked, and every type passed is marked. *)
Lemma collectUnmigrated_batch (tables : list iface) :
  forall (m m' : gmap rtype bool) (acc batch : list iface),
    collectUnmigrated tables m acc = (m', Returns batch) ->
    exists new,
      batch = acc ++ new /\
      (forall t, passes new t -> ~ marked m t /\ passes tables t) /\
      (forall x, In x new -> In x tables /\ x <> nil_iface) /\
      (forall t, passes tables t -> marked m' t).
Proof.
  induction tables as [|table rest IH]; simpl; intros m m' acc batch Hrun.
  - injection Hrun as <- <-. exists []. rewrite app_nil_r.
    split; [reflexivity|]. split; [intros t [v []]|]. split; [intros x []|].
    intros t [v []].
  - destruct table as [|t0 v]; simpl in Hrun; [discriminate|].
    destruct (negb (default false (m !! t0))) eqn:Hfresh.
    + destruct (IH _ _ _ _ Hrun) as (new & -> & Hnew & Hnn & Hall).
      exists (Val t0 v :: new). rewrite <- app_assoc. simpl.
      split; [reflexivity|]. split; [|split].
      * intros t Ht. apply passes_cons in Ht as [[v' Heq]|Ht].
        -- injection Heq as <- <-. split.
           ++ intros Hm. apply marked_default in Hm. rewrite Hm in Hfresh. discriminate.
           ++ apply passes_cons. left. eauto.
        -- destruct (Hnew t Ht) as [Hun Hp]. split.
           ++ intros Hm. apply Hun, marked_insert, Hm.
           ++ apply passes_cons. right. exact Hp.
      * intros x [<-|Hx]; [split; [left; reflexivity|discriminate]|].
        destruct (Hnn x Hx). split; [right|]; assumption.
      * intros t Ht. apply passes_cons in Ht as [[v' Heq]|Ht]; [|apply Hall, Ht].
        injection Heq as <- <-.
        apply (collectUnmigrated_keeps _ _ _ _ _ Hrun t0).
        apply lookup_insert_eq.
    + destruct (IH _ _ _ _ Hrun) as (new & -> & Hnew & Hnn & Hall).
      exists new. split; [reflexivity|]. split; [|split].
      * intros t Ht. destruct (Hnew t Ht) as [Hun Hp]. split; [exact Hun|].
        apply passes_cons. right. exact Hp.
      * intros x Hx. destruct (Hnn x Hx). split; [right|]; assumption.
      * intros t Ht. apply passes_cons in Ht as [[v' Heq]|Ht]; [|apply Hall, Ht].
        injection Heq as <- <-.
        apply (collectUnmigrated_keeps _ _ _ _ _ Hrun t0).
        apply marked_default. destruct (default false (m !! t0)); [reflexivity|discriminate].
Qed.

(** The loop panics exactly when a nil interface is among the tables. *)
Lemma collectUnmigrated_nil (tables : list iface) :
  forall (m : gmap rtype bool) (acc : list iface),
    In nil_iface tables ->
    exists m', collectUnmigrated tables m acc
               = (m', Panics "reflect: call of reflect.Value.Type on zero Value").
Proof.
  induction tables as [|table rest IH]; simpl; intros m acc Hin; [contradiction|].
  destruct table as [|t0 v]; simpl.
  - eexists. reflexivity.
  - destruct Hin as [Heq|Hin]; [discriminate|].
    destruct (negb (default false (m !! t0))); apply IH, Hin.
Qed.

Lemma collectUnmigrated_total (tables : list iface) :
  forall (m : gmap rtype bool) (acc : list iface),
    ~ In nil_iface tables ->
    exists m' batch, collectUnmigrated tables m acc = (m', Returns batch).
Proof.
  induction tables as [|table rest IH]; simpl; intros m acc Hnil.
  - eauto.
  - destruct table as [|t0 v]; simpl; [tauto|].
    destruct (negb (default false (m !! t0))); apply IH; tauto.
Qed.

(** ** What the calls do to the manager and to the log *)

Lemma grows_refl (m : gmap rtype bool) : grows m m.
Proof. intros t. tauto. Qed.

Lemma grows_trans (m1 m2 m3 : gmap rtype bool) :
  grows m1 m2 -> grows m2 m3 -> grows m1 m3.
Proof. intros H12 H23 t. destruct (H12 t), (H23 t). tauto. Qed.

Lemma no_open_app (e1 e2 : list Event) : no_open e1 -> no_open e2 -> no_open (e1 ++ e2).
Proof.
  unfold no_open. intros [H1 H2] [H3 H4].
  rewrite count_opens_app, pool_calls_app, H1, H2, H3, H4. split; reflexivity.
Qed.

Lemma fresh_batches_app (m m1 : gmap rtype bool) (e1 e2 : list Event) :
  grows m m1 -> fresh_batches m e1 -> fresh_batches m1 e2 -> fresh_batches m (e1 ++ e2).
Proof.
  unfold fresh_batches. intros Hg H1 H2 batch t Hin Hp.
  rewrite sync_batches_app in Hin. apply in_app_or in Hin as [Hin|Hin].
  - eapply H1; eassumption.
  - intros Hm. apply (H2 batch t Hin Hp). apply (Hg t), Hm.
Qed.

Lemma AutoMigrate_effect (c c1 : connectionManager) (w w1 : list Event)
    (tables : list iface) (o : outcome (option error)) :
  AutoMigrate c w tables = (o, c1, w1) ->
  same_connection c c1 /\ grows (migratedTables c) (migratedTables c1) /\
  exists evs, w1 = w ++ evs /\ no_open evs /\ fresh_batches (migratedTables c) evs.
Proof.
  unfold AutoMigrate. destruct (db c) as [h|] eqn:Hdb.
  - destruct (collectUnmigrated tables (migratedTables c) []) as [m' pending] eqn:Hloop.
    pose proof (collectUnmigrated_keeps _ _ _ _ _ Hloop) as Hkeep.
    destruct pending as [batch|msg]; intros [= <- <- <-]; simpl.
    + split; [repeat split; assumption|]. split; [exact Hkeep|].
      exists [EvAutoMigrate h batch]. split; [reflexivity|]. split; [split; reflexivity|].
      intros b t [<-|[]] Hp.
      destruct (collectUnmigrated_batch _ _ _ _ _ Hloop) as (new & -> & Hnew & _).
      simpl in Hp. apply (Hnew t Hp).
    + split; [repeat split; assumption|]. split; [exact Hkeep|].
      exists []. rewrite app_nil_r. split; [reflexivity|]. split; [split; reflexivity|].
      intros b t [].
  - intros [= <- <- <-]. split; [apply same_connection_refl|]. split; [apply grows_refl|].
    exists []. rewrite app_nil_r. split; [reflexivity|]. split; [split; reflexivity|].
    intros b t [].
Qed.

Lemma AutoMigrateOrWarn_effect (c c1 : connectionManager) (w w1 : list Event)
    (tables : list iface) (o : outcome unit) :
  AutoMigrateOrWarn c w tables = (o, c1, w1) ->
  same_connection c c1 /\ grows (migratedTables c) (migratedTables c1) /\
  exists evs, w1 = w ++ evs /\ no_open evs /\ fresh_batches (migratedTables c) evs.
Proof.
  unfold AutoMigrateOrWarn.
  destruct (AutoMigrate c w tables) as [[r c0] w0] eqn:Hcall.
  destruct (AutoMigrate_effect _ _ _ _ _ _ Hcall) as (Hsame & Hgrow & evs & -> & Hno & Hfresh).
  destruct r as [[err|]|msg]; intros [= <- <- <-];
    (split; [exact Hsame|]); (split; [exact Hgrow|]).
  - exists (evs ++ [EvPrintf (printf_line err)]). rewrite app_assoc.
    split; [reflexivity|]. split.
    + apply no_open_app; [exact Hno|split; reflexivity].
    + eapply fresh_batches_app; [apply grows_refl|exact Hfresh|intros b t []].
  - exists evs. auto.
  - exists evs. auto.
Qed.

(** Any call: the set of migrated types grows and the batches are fresh. *)
Lemma call_effect (op : Op) (c c1 : connectionManager) (w w1 : list Event) (r : Reply) :
  call op c w = (r, c1, w1) ->
  grows (migratedTables c) (migratedTables c1) /\
  connStr c1 = connStr c /\
  exists evs, w1 = w ++ evs /\ fresh_batches (migratedTables c) evs.
Proof.
  destruct op as [|tables|tables| |]; simpl.
  - destruct (GetConnection c w) as [[[h err] c0] w0] eqn:Hcall.
    intros [= <- <- <-]. destruct (once c) eqn:Hgate.
    + rewrite (GetConnection_closed_gate _ _ Hgate) in Hcall.
      injection Hcall as <- <- <- <-. split; [apply grows_refl|]. split; [reflexivity|].
      exists []. rewrite app_nil_r. split; [reflexivity|intros b t []].
    + unfold GetConnection in Hcall. rewrite Hgate in Hcall.
      destruct (execOnceOnlyFunc c w) as [[c2 w2] e2] eqn:Hexec.
      injection Hcall as <- <- <- <-. simpl.
      destruct (execOnceOnlyFunc_frame _ _ _ _ _ Hexec) as (_ & Hs & _ & -> & _).
      split; [apply grows_refl|]. split; [exact Hs|].
      revert Hexec. unfold execOnceOnlyFunc.
      destruct (open_result _) as [h0|h0 e0].
      * destruct (DB_DB _ h0) as [s|e0]; intros [= <- <- <-];
          rewrite <- !app_assoc; eexists; (split; [reflexivity|intros b t []]).
      * intros [= <- <- <-]. eexists. split; [reflexivity|intros b t []].
  - destruct (AutoMigrate c w tables) as [[o c0] w0] eqn:Hcall.
    intros [= <- <- <-].
    destruct (AutoMigrate_effect _ _ _ _ _ _ Hcall) as ((_&_&Hs&_) & Hg & evs & -> & _ & Hf).
    eauto 6.
  - destruct (AutoMigrateOrWarn c w tables) as [[o c0] w0] eqn:Hcall.
    intros [= <- <- <-].
    destruct (AutoMigrateOrWarn_effect _ _ _ _ _ _ Hcall)
      as ((_&_&Hs&_) & Hg & evs & -> & _ & Hf).
    eauto 6.
  - intros [= <- <- <-]. split; [apply grows_refl|]. split; [reflexivity|].
    exists []. rewrite app_nil_r. split; [reflexivity|intros b t []].
  - intros [= <- <- <-]. split; [apply grows_refl|]. split; [reflexivity|].
    exists []. rewrite app_nil_r. split; [reflexivity|intros b t []].
Qed.

Lemma run_effect (ops : list Op) :
  forall (c c1 : connectionManager) (w w1 : list Event) (rs : list Reply),
    run ops c w = (rs, c1, w1) ->
    grows (migratedTables c) (migratedTables c1) /\
    connStr c1 = connStr c /\
    exists evs, w1 = w ++ evs /\ fresh_batches (migratedTables c) evs.
Proof.
  induction ops as [|op rest IH]; simpl; intros c c1 w w1 rs Hrun.
  - injection Hrun as <- <- <-. split; [apply grows_refl|]. split; [reflexivity|].
    exists []. rewrite app_nil_r. split; [reflexivity|intros b t []].
  - destruct (call op c w) as [[r c0] w0] eqn:Hcall.
    destruct (run rest c0 w0) as [[rs0 c2] w2] eqn:Hrest.
    injection Hrun as <- <- <-.
    destruct (call_effect _ _ _ _ _ _ Hcall) as (Hg1 & Hs1 & e1 & -> & Hf1).
    destruct (IH _ _ _ _ _ Hrest) as (Hg2 & Hs2 & e2 & -> & Hf2).
    split; [eapply grows_trans; eassumption|]. split; [congruence|].
    exists (e1 ++ e2). rewrite app_assoc. split; [reflexivity|].
    eapply fresh_batches_app; eassumption.
Qed.

(** Once the gate is closed, no call opens anything again, and every
    [GetConnection] hands out the stored handle with a nil error. *)
Lemma call_closed_gate (op : Op) (c c1 : connectionManager) (w w1 : list Event)
    (r : Reply) :
  once c = true ->
  call op c w = (r, c1, w1) ->
  same_connection c c1 /\
  (exists evs, w1 = w ++ evs /\ no_open evs) /\
  (forall h err, r = RConn h err -> h = db c /\ err = None /\ w1 = w).
Proof.
  intros Hgate. destruct op as [|tables|tables| |]; simpl.
  - rewrite (GetConnection_closed_gate _ _ Hgate). intros [= <- <- <-].
    split; [apply same_connection_refl|]. split.
    + exists []. rewrite app_nil_r. split; [reflexivity|split; reflexivity].
    + intros h err [= <- <-]. auto.
  - destruct (AutoMigrate c w tables) as [[o c0] w0] eqn:Hcall.
    intros [= <- <- <-].
    destruct (AutoMigrate_effect _ _ _ _ _ _ Hcall) as (Hs & _ & evs & -> & Hno & _).
    split; [exact Hs|]. split; [eauto|]. intros h err [=].
  - destruct (AutoMigrateOrWarn c w tables) as [[o c0] w0] eqn:Hcall.
    intros [= <- <- <-].
    destruct (AutoMigrateOrWarn_effect _ _ _ _ _ _ Hcall) as (Hs & _ & evs & -> & Hno & _).
    split; [exact Hs|]. split; [eauto|]. intros h err [=].
  - intros [= <- <- <-]. split; [apply same_connection_refl|]. split.
    + exists []. rewrite app_nil_r. split; [reflexivity|split; reflexivity].
    + intros h err [=].
  - intros [= <- <- <-]. split; [apply same_connection_refl|]. split.
    + exists []. rewrite app_nil_r. split; [reflexivity|split; reflexivity].
    + intros h err [=].
Qed.

Lemma run_closed_gate (ops : list Op) :
  forall (c c1 : connectionManager) (w w1 : list Event) (rs : list Reply),
    once c = true ->
    run ops c w = (rs, c1, w1) ->
    same_connection c c1 /\
    (exists evs, w1 = w ++ evs /\ no_open evs) /\
    (forall h err, In (RConn h err) rs -> h = db c /\ err = None).
Proof.
  induction ops as [|op rest IH]; simpl; intros c c1 w w1 rs Hgate Hrun.
  - injection Hrun as <- <- <-. split; [apply same_connection_refl|]. split.
    + exists []. rewrite app_nil_r. split; [reflexivity|split; reflexivity].
    + intros h err [].
  - destruct (call op c w) as [[r c0] w0] eqn:Hcall.
    destruct (run rest c0 w0) as [[rs0 c2] w2] eqn:Hrest.
    injection Hrun as <- <- <-.
    destruct (call_closed_gate _ _ _ _ _ _ Hgate Hcall) as (Hs1 & (e1 & -> & Hn1) & Hr1).
    assert (Hgate0 : once c0 = true) by (destruct Hs1 as (_&_&_&_&->); exact Hgate).
    destruct (IH _ _ _ _ _ Hgate0 Hrest) as (Hs2 & (e2 & -> & Hn2) & Hr2).
    split; [eapply same_connection_trans; eassumption|]. split.
    + exists (e1 ++ e2). rewrite app_assoc. split; [reflexivity|].
      apply no_open_app; assumption.
    + intros h err [Heq|Hin].
      * destruct (Hr1 h err Heq) as (? & ? & _). auto.
      * destruct (Hr2 h err Hin) as [-> ->]. destruct Hs1 as (_&_&_&->&_). auto.
Qed.

(** ** One turn of the loop, and a call that returns *)

Lemma collectUnmigrated_fresh (t : rtype) (v : string) (rest : list iface)
    (m : gmap rtype bool) (acc : list iface) :
  ~ marked m t ->
  collectUnmigrated (Val t v :: rest) m acc
  = collectUnmigrated rest (<[t := true]> m) (acc ++ [Val t v]).
Proof.
  intros Hun. simpl. destruct (default false (m !! t)) eqn:Hd; [|reflexivity].
  apply marked_default in Hd. contradiction.
Qed.

Lemma collectUnmigrated_marked (t : rtype) (v : string) (rest : list iface)
    (m : gmap rtype bool) (acc : list iface) :
  marked m t ->
  collectUnmigrated (Val t v :: rest) m acc = collectUnmigrated rest m acc.
Proof.
  intros Hm. simpl. apply marked_default in Hm. rewrite Hm. reflexivity.
Qed.

Lemma unmarked_insert (m : gmap rtype bool) (t t0 : rtype) :
  t <> t0 -> ~ marked m t0 -> ~ marked (<[t := true]> m) t0.
Proof. unfold marked. intros Hne Hun. rewrite lookup_insert_ne; assumption. Qed.

Lemma marked_insert_eq (m : gmap rtype bool) (t : rtype) : marked (<[t := true]> m) t.
Proof. apply lookup_insert_eq. Qed.

(** A completed [AutoMigrate] on a manager with a handle: one batch goes to
    the sync engine, its answer is returned, and every type passed is
    marked, whatever the answer. *)
Lemma AutoMigrate_returns (c c1 : connectionManager) (w w1 : list Event) (h : gorm_DB)
    (tables : list iface) (e : option error) :
  db c = Some h ->
  AutoMigrate c w tables = (Returns e, c1, w1) ->
  exists batch,
    w1 = w ++ [EvAutoMigrate h batch] /\
    e = DB_AutoMigrate w h batch /\
    collectUnmigrated tables (migratedTables c) [] = (migratedTables c1, Returns batch) /\
    (forall t, passes batch t -> ~ marked (migratedTables c) t /\ passes tables t) /\
    (forall t, passes tables t -> marked (migratedTables c1) t).
Proof.
  intros Hdb. unfold AutoMigrate. rewrite Hdb.
  destruct (collectUnmigrated tables (migratedTables c) []) as [m' pending] eqn:Hloop.
  destruct pending as [batch|msg]; [|discriminate].
  intros [= <- <- <-]. simpl. exists batch.
  destruct (collectUnmigrated_batch _ _ _ _ _ Hloop) as (new & Hb & Hnew & _ & Hall).
  simpl in Hb. subst new. repeat split; try assumption; apply (Hnew t); assumption.
Qed.

(** ** Construction *)

Lemma execOnceOnlyFunc_error (c c1 : connectionManager) (w w1 : list Event)
    (err : option error) :
  execOnceOnlyFunc c w = (c1, w1, err) -> err = attempt_error w (dialector c) (config c).
Proof.
  unfold execOnceOnlyFunc, attempt_error.
  destruct (open_result _) as [h|h e].
  - destruct (DB_DB _ h) as [s|e]; intros [= <- <- <-]; reflexivity.
  - intros [= <- <- <-]. reflexivity.
Qed.

Lemma NewBaseConnectionManager_facts (connStr0 : string) (d : option Dialector)
    (cfg : option gorm_Config) (m : connectionManager) (err : option error)
    (w : list Event) :
  NewBaseConnectionManager connStr0 d cfg = (m, err, w) ->
  let used := Some (config_or_default cfg defaultConfig) in
  once m = true /\ connStr m = connStr0 /\ dialector m = d /\ migratedTables m = ∅ /\
  db m = open_db (open_result (gorm_Open [] d used)) /\
  config m = pointee_after used (open_config (gorm_Open [] d used)) /\
  err = attempt_error [] d used /\
  exists rest, w = EvOpen d used :: rest /\ count_opens rest = 0.
Proof.
  unfold NewBaseConnectionManager. simpl.
  assert (Hcfg : match cfg with
                 | Some _ => mkManager d cfg connStr0 None false ∅
                 | None => mkManager d (Some defaultConfig) connStr0 None false ∅
                 end
                 = mkManager d (Some (config_or_default cfg defaultConfig)) connStr0
                     None false ∅) by (destruct cfg; reflexivity).
  rewrite Hcfg. clear Hcfg.
  set (c0 := mkManager d _ connStr0 None false ∅).
  unfold GetConnection. simpl.
  destruct (execOnceOnlyFunc c0 []) as [[c1 w1] e1] eqn:Hexec.
  intros [= <- <- <-]. simpl.
  destruct (execOnceOnlyFunc_frame _ _ _ _ _ Hexec) as (Hd & Hs & _ & Hm & Hdb & Hc).
  destruct (execOnceOnlyFunc_log _ _ _ _ _ Hexec) as (rest & -> & Hrest).
  pose proof (execOnceOnlyFunc_error _ _ _ _ _ Hexec) as He.
  repeat split; try assumption. exists rest. split; [reflexivity|assumption].
Qed.

(** ** The claims *)

(** C2. For every constructed manager and every sequence of later calls,
    whatever the number of [GetConnection] calls in it, the log holds
    exactly one call of [gorm.Open], and every [GetConnection] returns the
    same handle: the one that call of [gorm.Open] handed back, stored in
    the manager. *)
Theorem open_exactly_once (connStr0 : string) (d : option Dialector)
    (cfg : option gorm_Config) (ops : list Op) :
  let '(m, _, w0) := NewBaseConnectionManager connStr0 d cfg in
  let '(rs, _, w) := run ops m w0 in
  count_opens w = 1 /\
  db m = open_db (open_result
                    (gorm_Open [] d (Some (config_or_default cfg defaultConfig)))) /\
  forall h err, In (RConn h err) rs -> h = db m.
Proof.
  destruct (NewBaseConnectionManager connStr0 d cfg) as [[m e] w0] eqn:Hnew.
  destruct (run ops m w0) as [[rs m1] w] eqn:Hrun.
  destruct (NewBaseConnectionManager_facts _ _ _ _ _ _ Hnew)
    as (Hgate & _ & _ & _ & Hdb & _ & _ & rest & -> & Hrest).
  destruct (run_closed_gate _ _ _ _ _ _ Hgate Hrun) as (_ & (evs & -> & Hno & _) & Hrs).
  split; [|split; [exact Hdb|]].
  - rewrite count_opens_app. simpl. rewrite Hrest, Hno. reflexivity.
  - intros h err Hin. apply (Hrs h err Hin).
Qed.

(** C1, as the code has it.  When construction reports an open failure,
    a later [GetConnection] does not call [gorm.Open] again, but it does
    not report the failure either: [err] is a variable of the call, only
    the call that runs the closure sees it assigned, and every later call
    returns the stored handle with a nil error. *)
Theorem GetConnection_forgets_open_error (connStr0 : string) (d : option Dialector)
    (cfg : option gorm_Config) (m : connectionManager) (e : error) (w0 : list Event)
    (ops : list Op) (rs : list Reply) (m1 : connectionManager) (w : list Event) :
  NewBaseConnectionManager connStr0 d cfg = (m, Some e, w0) ->
  run ops m w0 = (rs, m1, w) ->
  GetConnection m w0 = (db m, None, m, w0) /\
  count_opens w = 1 /\
  forall h err, In (RConn h err) rs -> err = None.
Proof.
  intros Hnew Hrun.
  destruct (NewBaseConnectionManager_facts _ _ _ _ _ _ Hnew)
    as (Hgate & _ & _ & _ & _ & _ & _ & rest & -> & Hrest).
  destruct (run_closed_gate _ _ _ _ _ _ Hgate Hrun) as (_ & (evs & -> & Hno & _) & Hrs).
  split; [apply GetConnection_closed_gate, Hgate|]. split.
  - rewrite count_opens_app. simpl. rewrite Hrest, Hno. reflexivity.
  - intros h err Hin. apply (Hrs h err Hin).
Qed.

(** C7. Construction makes the first open attempt itself: the log of a
    constructed manager starts with the call of [gorm.Open], the gate is
    closed, and the error returned with the manager is the error of that
    attempt (of [gorm.Open], or else of [DB()]).  The fatal variant exits
    the process with [log.Fatalf] when that error is not nil and returns
    the manager otherwise. *)
Theorem construction_opens_eagerly (connStr0 : string) (d : option Dialector)
    (cfg : option gorm_Config) :
  let used := Some (config_or_default cfg defaultConfig) in
  let '(m, err, w) := NewBaseConnectionManager connStr0 d cfg in
  (exists rest, w = EvOpen d used :: rest /\ count_opens rest = 0) /\
  once m = true /\
  err = attempt_error [] d used /\
  MustNewBaseConnectionManager connStr0 d cfg
  = match attempt_error [] d used with
    | Some e => (Aborted 1, w ++ [EvFatalf (fatal_line e)])
    | None => (Started m, w)
    end.
Proof.
  unfold MustNewBaseConnectionManager.
  destruct (NewBaseConnectionManager connStr0 d cfg) as [[m err] w] eqn:Hnew.
  destruct (NewBaseConnectionManager_facts _ _ _ _ _ _ Hnew)
    as (Hgate & _ & _ & _ & _ & _ & Herr & rest & -> & Hrest).
  simpl. split; [eauto|]. split; [exact Hgate|]. split; [exact Herr|].
  rewrite <- Herr. destruct err; reflexivity.
Qed.

(** C8. With a nil configuration the constructor hands [gorm.Open] a
    configuration whose logger writes to standard output with a slow
    threshold of one second (10^9 ns), level Error and colours on; a
    non-nil configuration is handed to [gorm.Open] as it is.  The manager
    keeps that configuration, as [gorm.Open] left it. *)
Theorem default_configuration (connStr0 : string) (d : option Dialector) :
  (exists cfgD lg rest,
      snd (NewBaseConnectionManager connStr0 d None) = EvOpen d (Some cfgD) :: rest /\
      config (fst (fst (NewBaseConnectionManager connStr0 d None)))
      = pointee_after (Some cfgD) (open_config (gorm_Open [] d (Some cfgD))) /\
      Logger cfgD = Some lg /\
      log_out (logger_writer lg) = os_Stdout /\
      SlowThreshold (logger_config lg) = time_Second /\
      time_Second = 1000000000%Z /\
      LogLevel (logger_config lg) = logger_Error /\
      Colorful (logger_config lg) = true) /\
  (forall cfg0, exists rest,
      snd (NewBaseConnectionManager connStr0 d (Some cfg0)) = EvOpen d (Some cfg0) :: rest /\
      config (fst (fst (NewBaseConnectionManager connStr0 d (Some cfg0))))
      = pointee_after (Some cfg0) (open_config (gorm_Open [] d (Some cfg0)))).
Proof.
  split.
  - destruct (NewBaseConnectionManager connStr0 d None) as [[m err] w] eqn:Hnew.
    destruct (NewBaseConnectionManager_facts _ _ _ _ _ _ Hnew)
      as (_ & _ & _ & _ & _ & Hcfg & _ & rest & -> & _).
    exists defaultConfig, defaultLogger, rest. simpl in *.
    repeat split. exact Hcfg.
  - intros cfg0.
    destruct (NewBaseConnectionManager connStr0 d (Some cfg0)) as [[m err] w] eqn:Hnew.
    destruct (NewBaseConnectionManager_facts _ _ _ _ _ _ Hnew)
      as (_ & _ & _ & _ & _ & Hcfg & _ & rest & -> & _).
    exists rest. simpl in *. split; [reflexivity|exact Hcfg].
Qed.

(** C9. The call of [GetConnection] that runs the closure and returns a
    nil error has set the pool of the opened handle to 10 idle connections
    at most and to no limit on open connections (the value -1, which
    database/sql reads as no limit), in that order; a call that returns an
    error, or that finds the gate closed, sets nothing on any pool. *)
Theorem pool_settings_on_success (c c1 : connectionManager) (w w1 : list Event)
    (h : option gorm_DB) (err : option error) :
  GetConnection c w = (h, err, c1, w1) ->
  (once c = false -> err = None ->
   exists hdl sqlDB,
     h = Some hdl /\
     DB_DB (w ++ [EvOpen (dialector c) (config c)]) hdl = DBOk sqlDB /\
     w1 = w ++ [EvOpen (dialector c) (config c); EvDB hdl;
                EvSetMaxIdleConns sqlDB 10; EvSetMaxOpenConns sqlDB (-1)] /\
     pool_calls w1
     = pool_calls w ++ [EvSetMaxIdleConns sqlDB 10; EvSetMaxOpenConns sqlDB (-1)] /\
     sql_no_limit (-1) = true) /\
  (once c = true \/ err <> None -> pool_calls w1 = pool_calls w).
Proof.
  intros Hcall. split.
  - intros Hgate Herr. unfold GetConnection in Hcall. rewrite Hgate in Hcall.
    destruct (execOnceOnlyFunc c w) as [[c0 w0] e0] eqn:Hexec.
    injection Hcall as <- <- <- <-. subst e0. simpl.
    revert Hexec. unfold execOnceOnlyFunc.
    destruct (open_result _) as [hdl|hdl e]; [|discriminate].
    destruct (DB_DB _ hdl) as [sqlDB|e] eqn:Hdb; [|discriminate].
    intros [= <- <-]. simpl. exists hdl, sqlDB.
    rewrite <- !app_assoc. simpl.
    split; [reflexivity|]. split; [exact Hdb|]. split; [reflexivity|].
    split; [|reflexivity].
    rewrite pool_calls_app. reflexivity.
  - intros [Hgate|Herr].
    + rewrite (GetConnection_closed_gate _ _ Hgate) in Hcall.
      injection Hcall as <- <- <- <-. reflexivity.
    + destruct (once c) eqn:Hgate.
      * rewrite (GetConnection_closed_gate _ _ Hgate) in Hcall.
        injection Hcall as <- <- <- <-. reflexivity.
      * unfold GetConnection in Hcall. rewrite Hgate in Hcall.
        destruct (execOnceOnlyFunc c w) as [[c0 w0] e0] eqn:Hexec.
        injection Hcall as <- <- <- <-.
        revert Hexec. unfold execOnceOnlyFunc.
        destruct (open_result _) as [hdl|hdl e].
        -- destruct (DB_DB _ hdl) as [sqlDB|e]; intros [= <- <- <-].
           ++ contradiction Herr. reflexivity.
           ++ rewrite !pool_calls_app. simpl. rewrite !app_nil_r. reflexivity.
        -- intros [= <- <- <-]. rewrite pool_calls_app. simpl. apply app_nil_r.
Qed.

(** C10. On a manager with a handle, [AutoMigrate] and [AutoMigrateOrWarn]
    panic whenever a nil interface is among the tables: nothing filters nil
    before [reflect.ValueOf(table).Type()], which panics on it.  No batch
    reaches the sync engine. *)
Theorem AutoMigrate_panics_on_nil (c : connectionManager) (w : list Event)
    (h : gorm_DB) (tables : list iface) :
  db c = Some h ->
  In nil_iface tables ->
  exists c1 msg,
    AutoMigrate c w tables = (Panics msg, c1, w) /\
    AutoMigrateOrWarn c w tables = (Panics msg, c1, w).
Proof.
  intros Hdb Hnil.
  destruct (collectUnmigrated_nil tables (migratedTables c) [] Hnil) as [m' Hloop].
  unfold AutoMigrateOrWarn, AutoMigrate. rewrite Hdb, Hloop.
  eexists _, _. split; reflexivity.
Qed.

(** The guard of [AutoMigrate]: on a manager whose handle is nil it returns
    [ErrConnectionClosed], a value that no collaborator error equals; the
    manager, with its set of migrated types, and the log, with the calls of
    the sync engine, are as before. *)
Theorem AutoMigrate_without_handle (c : connectionManager) (w : list Event)
    (tables : list iface) :
  db c = None ->
  AutoMigrate c w tables = (Returns (Some ErrConnectionClosed), c, w) /\
  forall msg, ErrConnectionClosed <> LibError msg.
Proof.
  intros Hdb. unfold AutoMigrate. rewrite Hdb. split; [reflexivity|discriminate].
Qed.

(** C3. After an [AutoMigrate] call that returned on a manager with a
    handle, no batch handed to the sync engine by any later call holds a
    table whose type identity was passed to that call.  With three tables
    A, B, C of distinct, unmarked types: [AutoMigrate(A, B)] hands the
    engine [A; B], and [AutoMigrate(A, B, C)] after it hands the engine
    exactly [C]. *)
Theorem AutoMigrate_filters_earlier_types (c c2 : connectionManager) (w w2 : list Event)
    (h : gorm_DB) (tables1 : list iface) (e : option error) (ops : list Op)
    (rs : list Reply) :
  db c = Some h ->
  run (OpAutoMigrate tables1 :: ops) c w = (RMigrate (Returns e) :: rs, c2, w2) ->
  exists batch1 evs,
    w2 = w ++ EvAutoMigrate h batch1 :: evs /\
    (forall batch t, In batch (sync_batches evs) -> passes batch t -> ~ passes tables1 t) /\
    (forall tA tB tC a b c',
        tA <> tB -> tA <> tC -> tB <> tC ->
        ~ marked (migratedTables c) tA ->
        ~ marked (migratedTables c) tB ->
        ~ marked (migratedTables c) tC ->
        tables1 = [Val tA a; Val tB b] ->
        ops = [OpAutoMigrate [Val tA a; Val tB b; Val tC c']] ->
        batch1 = [Val tA a; Val tB b] /\ sync_batches evs = [[Val tC c']]).
Proof.
  intros Hdb Hrun. simpl in Hrun.
  destruct (AutoMigrate c w tables1) as [[o c1] w1] eqn:Hfirst.
  destruct (run ops c1 w1) as [[rs0 c0] w0] eqn:Hrest.
  injection Hrun as -> <- <- <-.
  destruct (AutoMigrate_returns _ _ _ _ _ _ _ Hdb Hfirst)
    as (batch1 & -> & _ & Hloop & _ & Hall).
  destruct (run_effect _ _ _ _ _ _ Hrest) as (_ & _ & evs & -> & Hfresh).
  exists batch1, evs. rewrite <- app_assoc. simpl. split; [reflexivity|]. split.
  - intros batch t Hin Hp Hearlier. apply (Hfresh batch t Hin Hp), Hall, Hearlier.
  - intros tA tB tC a b c' HAB HAC HBC HA HB HC -> ->.
    rewrite (collectUnmigrated_fresh _ _ _ _ _ HA) in Hloop.
    rewrite (collectUnmigrated_fresh _ _ _ _ _ (unmarked_insert _ _ _ HAB HB)) in Hloop.
    simpl in Hloop. injection Hloop as Hm <-. split; [reflexivity|].
    destruct (AutoMigrate_effect _ _ _ _ _ _ Hfirst) as ((_ & _ & _ & Hdb1 & _) & _).
    rewrite Hdb in Hdb1. simpl in Hrest. unfold AutoMigrate in Hrest.
    rewrite Hdb1, <- Hm in Hrest.
    rewrite (collectUnmigrated_marked tA a) in Hrest
      by (apply marked_insert, marked_insert_eq).
    rewrite (collectUnmigrated_marked tB b) in Hrest by apply marked_insert_eq.
    rewrite (collectUnmigrated_fresh tC c') in Hrest
      by (apply unmarked_insert; [exact HBC|apply unmarked_insert; assumption]).
    simpl in Hrest. injection Hrest as _ _ Hw.
    apply app_inv_head in Hw. subst evs. reflexivity.
Qed.

(** C6. Over any sequence of calls the set of migrated types only grows:
    an entry present stays present and a mark stays.  An [AutoMigrate] call
    marks the types it passes whatever the sync engine answers; when the
    engine answers with an error, the types of that batch are marked all
    the same, and no later call hands any of them to the engine again. *)
Theorem migrated_set_grows_marks_first (c c2 : connectionManager) (w w2 : list Event)
    (ops : list Op) (rs : list Reply) :
  run ops c w = (rs, c2, w2) ->
  grows (migratedTables c) (migratedTables c2) /\
  (forall h tables rest err rs',
      db c = Some h ->
      ops = OpAutoMigrate tables :: rest ->
      rs = RMigrate (Returns (Some err)) :: rs' ->
      exists batch evs,
        w2 = w ++ EvAutoMigrate h batch :: evs /\
        DB_AutoMigrate w h batch = Some err /\
        (forall t, passes batch t -> ~ marked (migratedTables c) t /\ passes tables t) /\
        (forall t, passes tables t -> marked (migratedTables c2) t) /\
        (forall b t, In b (sync_batches evs) -> passes b t -> ~ passes tables t)).
Proof.
  intros Hrun. split; [apply (run_effect _ _ _ _ _ _ Hrun)|].
  intros h tables rest err rs' Hdb -> ->. simpl in Hrun.
  destruct (AutoMigrate c w tables) as [[o c1] w1] eqn:Hfirst.
  destruct (run rest c1 w1) as [[rs0 c0] w0] eqn:Hrest.
  injection Hrun as -> <- <- <-.
  destruct (AutoMigrate_returns _ _ _ _ _ _ _ Hdb Hfirst)
    as (batch & -> & Herr & _ & Hnew & Hall).
  destruct (run_effect _ _ _ _ _ _ Hrest) as (Hgrow & _ & evs & -> & Hfresh).
  exists batch, evs. rewrite <- app_assoc. simpl.
  split; [reflexivity|]. split; [symmetry; exact Herr|]. split; [exact Hnew|]. split.
  - intros t Ht. apply (Hgrow t), Hall, Ht.
  - intros b t Hin Hp Hearlier. apply (Hfresh b t Hin Hp), Hall, Hearlier.
Qed.


End Properties.

(** * Concrete runs *)

Lemma GetConnection_forgets_open_error_witness :
  NewBaseConnectionManager (G := unreachable) dsn (Some postgres) None
  = (refused_manager, Some refused, refused_log) /\
  run (G := unreachable) [OpGetConnection; OpGetConnection] refused_manager refused_log
  = ([RConn (Some 1%positive) None; RConn (Some 1%positive) None],
     refused_manager, refused_log) /\
  GetConnection (G := unreachable) refused_manager refused_log
  = (Some 1%positive, None, refused_manager, refused_log) /\
  count_opens refused_log = 1.
Proof.
  assert (Hnew : NewBaseConnectionManager (G := unreachable) dsn (Some postgres) None
                 = (refused_manager, Some refused, refused_log)) by reflexivity.
  assert (Hrun : run (G := unreachable) [OpGetConnection; OpGetConnection]
                   refused_manager refused_log
                 = ([RConn (Some 1%positive) None; RConn (Some 1%positive) None],
                    refused_manager, refused_log)) by reflexivity.
  destruct (GetConnection_forgets_open_error (G := unreachable) _ _ _ _ _ _ _ _ _ _
              Hnew Hrun) as (Hget & Hcount & _).
  repeat split; assumption.
Defined.

Lemma AutoMigrate_filters_earlier_types_witness :
  db ready_manager = Some 1%positive /\
  run (G := reachable) [OpAutoMigrate [User; Order]; OpAutoMigrate [User; Order; Invoice]]
    ready_manager ready_log
  = ([RMigrate (Returns None); RMigrate (Returns None)],
     with_migrated ready_manager ["*models.User"; "*models.Order"; "*models.Invoice"],
     ready_log ++ [EvAutoMigrate 1%positive [User; Order];
                   EvAutoMigrate 1%positive [Invoice]]) /\
  exists batch1 evs,
    ready_log ++ [EvAutoMigrate 1%positive [User; Order]; EvAutoMigrate 1%positive [Invoice]]
    = ready_log ++ EvAutoMigrate 1%positive batch1 :: evs /\
    batch1 = [User; Order] /\ sync_batches evs = [[Invoice]].
Proof.
  assert (Hdb : db ready_manager = Some 1%positive) by reflexivity.
  assert (Hrun : run (G := reachable)
                   [OpAutoMigrate [User; Order]; OpAutoMigrate [User; Order; Invoice]]
                   ready_manager ready_log
                 = ([RMigrate (Returns None); RMigrate (Returns None)],
                    with_migrated ready_manager
                      ["*models.User"; "*models.Order"; "*models.Invoice"],
                    ready_log ++ [EvAutoMigrate 1%positive [User; Order];
                                  EvAutoMigrate 1%positive [Invoice]]))
    by (vm_compute; reflexivity).
  split; [exact Hdb|]. split; [exact Hrun|].
  destruct (AutoMigrate_filters_earlier_types (G := reachable) _ _ _ _ _ _ _ _ _ Hdb Hrun)
    as (batch1 & evs & Hlog & _ & Hscenario).
  exists batch1, evs. split; [exact Hlog|].
  apply (Hscenario "*models.User" "*models.Order" "*models.Invoice"
           "&User{}" "&Order{}" "&Invoice{}");
    try discriminate; try reflexivity; unfold marked; simpl;
    rewrite lookup_empty; discriminate.
Defined.

Lemma AutoMigrate_without_handle_witness :
  db unopened_manager = None /\
  NewBaseConnectionManager (G := unopened) dsn (Some postgres) None
  = (unopened_manager, Some refused, refused_log) /\
  AutoMigrate (G := unopened) unopened_manager refused_log [User; Order]
  = (Returns (Some ErrConnectionClosed), unopened_manager, refused_log).
Proof.
  assert (Hdb : db unopened_manager = None) by reflexivity.
  split; [exact Hdb|]. split; [reflexivity|].
  exact (proj1 (AutoMigrate_without_handle (G := unopened) unopened_manager refused_log
                  [User; Order] Hdb)).
Defined.

Lemma migrated_set_grows_marks_first_witness :
  run (G := failing_sync) [OpAutoMigrate [User; Order]; OpAutoMigrate [Order; User]]
    ready_manager ready_log
  = ([RMigrate (Returns (Some denied)); RMigrate (Returns (Some denied))],
     with_migrated ready_manager ["*models.User"; "*models.Order"],
     ready_log ++ [EvAutoMigrate 1%positive [User; Order]; EvAutoMigrate 1%positive []]) /\
  db ready_manager = Some 1%positive /\
  grows (migratedTables ready_manager)
    (migratedTables (with_migrated ready_manager ["*models.User"; "*models.Order"])) /\
  exists batch evs,
    ready_log ++ [EvAutoMigrate 1%positive [User; Order]; EvAutoMigrate 1%positive []]
    = ready_log ++ EvAutoMigrate 1%positive batch :: evs /\
    DB_AutoMigrate (Gorm := failing_sync) ready_log 1%positive batch = Some denied /\
    (forall t, passes [User; Order] t ->
               marked (migratedTables
                         (with_migrated ready_manager ["*models.User"; "*models.Order"])) t) /\
    (forall b t, In b (sync_batches evs) -> passes b t -> ~ passes [User; Order] t).
Proof.
  assert (Hrun : run (G := failing_sync)
                   [OpAutoMigrate [User; Order]; OpAutoMigrate [Order; User]]
                   ready_manager ready_log
                 = ([RMigrate (Returns (Some denied)); RMigrate (Returns (Some denied))],
                    with_migrated ready_manager ["*models.User"; "*models.Order"],
                    ready_log ++ [EvAutoMigrate 1%positive [User; Order];
                                  EvAutoMigrate 1%positive []]))
    by (vm_compute; reflexivity).
  assert (Hdb : db ready_manager = Some 1%positive) by reflexivity.
  split; [exact Hrun|]. split; [exact Hdb|].
  destruct (migrated_set_grows_marks_first (G := failing_sync) _ _ _ _ _ _ Hrun)
    as [Hgrows Hfirst].
  split; [exact Hgrows|].
  destruct (Hfirst 1%positive [User; Order] [OpAutoMigrate [Order; User]] denied
              [RMigrate (Returns (Some denied))] Hdb eq_refl eq_refl)
    as (batch & evs & Hlog & Herr & _ & Hmarked & Hnever).
  exists batch, evs. repeat split; assumption.
Defined.

Lemma pool_settings_on_success_witness :
  GetConnection (G := reachable) fresh_manager []
  = (Some 1%positive, None, ready_manager, ready_log) /\
  once fresh_manager = false /\
  pool_calls ready_log
  = [EvSetMaxIdleConns 2%positive 10; EvSetMaxOpenConns 2%positive (-1)] /\
  GetConnection (G := unreachable) fresh_manager []
  = (Some 1%positive, Some refused, refused_manager, refused_log) /\
  pool_calls refused_log = [].
Proof.
  assert (Hok : GetConnection (G := reachable) fresh_manager []
                = (Some 1%positive, None, ready_manager, ready_log)) by reflexivity.
  assert (Hko : GetConnection (G := unreachable) fresh_manager []
                = (Some 1%positive, Some refused, refused_manager, refused_log))
    by reflexivity.
  split; [exact Hok|]. split; [reflexivity|].
  destruct (pool_settings_on_success (G := reachable) _ _ _ _ _ _ Hok) as [Hset _].
  destruct (Hset eq_refl eq_refl) as (hdl & sqlDB & _ & Hsql & _ & Hpool & _).
  injection Hsql as <-.
  split; [exact Hpool|]. split; [exact Hko|].
  destruct (pool_settings_on_success (G := unreachable) _ _ _ _ _ _ Hko) as [_ Hnone].
  apply Hnone. right. discriminate.
Defined.

Lemma AutoMigrate_panics_on_nil_witness :
  db ready_manager = Some 1%positive /\
  In nil_iface [User; nil_iface] /\
  exists c1 msg,
    AutoMigrate (G := reachable) ready_manager ready_log [User; nil_iface]
    = (Panics msg, c1, ready_log) /\
    AutoMigrateOrWarn (G := reachable) ready_manager ready_log [User; nil_iface]
    = (Panics msg, c1, ready_log).
Proof.
  assert (Hdb : db ready_manager = Some 1%positive) by reflexivity.
  assert (Hnil : In nil_iface [User; nil_iface]) by (right; left; reflexivity).
  split; [exact Hdb|]. split; [exact Hnil|].
  exact (AutoMigrate_panics_on_nil (G := reachable) ready_manager ready_log 1%positive
           [User; nil_iface] Hdb Hnil).
Defined.

(** ** Further runs *)

(** Where [gorm.Open] records the dialector in the configuration it is
    given, [Dialect()] returns the supplied name. *)
Example Dialect_after_in_place_open :
  Dialect (fst (fst (NewBaseConnectionManager (G := in_place) dsn (Some postgres) None)))
  = Returns "postgres" /\
  ConnString (fst (fst (NewBaseConnectionManager (G := in_place) dsn (Some postgres) None)))
  = dsn.
Proof. split; reflexivity. Qed.

(** After a failed open that handed back a handle, [c.db] is not nil and
    [AutoMigrate] goes on to the sync engine: the guard looks at the
    handle, not at the outcome of the open. *)
Example AutoMigrate_after_failed_open_with_handle :
  AutoMigrate (G := unreachable) refused_manager refused_log [User]
  = (Returns None, with_migrated refused_manager ["*models.User"],
     refused_log ++ [EvAutoMigrate 1%positive [User]]).
Proof. vm_compute. reflexivity. Qed.

Example three_calls_one_open :
  run (G := reachable) [OpGetConnection; OpGetConnection; OpGetConnection]
    (fst (fst (NewBaseConnectionManager (G := reachable) dsn (Some postgres) None)))
    (snd (NewBaseConnectionManager (G := reachable) dsn (Some postgres) None))
  = ([RConn (Some 1%positive) None; RConn (Some 1%positive) None;
      RConn (Some 1%positive) None], ready_manager, ready_log).
Proof. reflexivity. Qed.

Example fatal_variant_aborts :
  MustNewBaseConnectionManager (G := unreachable) dsn (Some postgres) None
  = (Aborted 1, refused_log ++ [EvFatalf (fatal_line refused)]) /\
  MustNewBaseConnectionManager (G := reachable) dsn (Some postgres) None
  = (Started ready_manager, ready_log).
Proof. split; reflexivity. Qed.

(** * Further properties of the methods *)

Section Further.

Context `{G : Gorm}.

Lemma printed_app (w1 w2 : list Event) : printed (w1 ++ w2) = printed w1 ++ printed w2.
Proof.
  induction w1 as [|ev w1 IH]; simpl; [reflexivity|].
  destruct ev; simpl; rewrite IH; reflexivity.
Qed.

Lemma table_types_passes (tables : list iface) (t : rtype) :
  t ∈ table_types tables <-> passes tables t.
Proof.
  induction tables as [|x rest IH]; simpl.
  - split; [intros Hin; inversion Hin|intros [v []]].
  - rewrite passes_cons. destruct x as [|t0 v0].
    + rewrite IH. split; [tauto|]. intros [[v Heq]|Hp]; [discriminate|exact Hp].
    + rewrite elem_of_cons, IH. split.
      * intros [->|Hp]; [left; eauto|right; exact Hp].
      * intros [[v Heq]|Hp]; [left; congruence|right; exact Hp].
Qed.

(** The loop leaves alone every type that is not among the tables, also
    when it panics. *)
Lemma collectUnmigrated_untouched (tables : list iface) :
  forall (m m' : gmap rtype bool) (acc : list iface) (o : outcome (list iface)),
    collectUnmigrated tables m acc = (m', o) ->
    forall t, ~ passes tables t -> m' !! t = m !! t.
Proof.
  induction tables as [|table rest IH]; simpl; intros m m' acc o Hrun t Hnot.
  - injection Hrun as <- _. reflexivity.
  - destruct table as [|t0 v]; simpl in Hrun.
    + injection Hrun as <- _. reflexivity.
    + assert (Hne : t0 <> t).
      { intros ->. apply Hnot, passes_cons. left. eauto. }
      assert (Hrest : ~ passes rest t).
      { intros Hp. apply Hnot, passes_cons. right. exact Hp. }
      destruct (negb (default false (m !! t0))).
      * rewrite (IH _ _ _ _ Hrun t Hrest). apply lookup_insert_ne, Hne.
      * exact (IH _ _ _ _ Hrun t Hrest).
Qed.

(** The pending list keeps the order of the tables, holds one table for each
    type, and holds exactly the types passed that were not marked. *)
Lemma collectUnmigrated_shape (tables : list iface) :
  forall (m m' : gmap rtype bool) (acc batch : list iface),
    collectUnmigrated tables m acc = (m', Returns batch) ->
    exists new,
      batch = acc ++ new /\
      sublist new tables /\
      NoDup (table_types new) /\
      (forall t, passes new t <-> passes tables t /\ ~ marked m t).
Proof.
  induction tables as [|table rest IH]; simpl; intros m m' acc batch Hrun.
  - injection Hrun as <- <-. exists []. rewrite app_nil_r.
    split; [reflexivity|]. split; [constructor|]. split; [constructor|].
    intros t. split; [intros [v []]|intros [[v []] _]].
  - destruct table as [|t0 v]; simpl in Hrun; [discriminate|].
    destruct (negb (default false (m !! t0))) eqn:Hfresh.
    + destruct (IH _ _ _ _ Hrun) as (new & -> & Hsub & Hnodup & Hiff).
      assert (Hun : ~ marked m t0).
      { intros Hm. apply marked_default in Hm. rewrite Hm in Hfresh. discriminate. }
      exists (Val t0 v :: new). rewrite <- app_assoc. simpl.
      split; [reflexivity|]. split; [constructor; exact Hsub|]. split.
      * constructor; [|exact Hnodup].
        intros Hin. apply table_types_passes, Hiff in Hin as [_ Hnot].
        apply Hnot, marked_insert_eq.
      * intros t. rewrite !passes_cons, Hiff. split.
        -- intros [[v' Heq]|[Hp Hnot]].
           ++ injection Heq as <- <-. split; [left; eauto|exact Hun].
           ++ split; [right; exact Hp|]. intros Hm. apply Hnot, marked_insert, Hm.
        -- intros [[[v' Heq]|Hp] Hnot]; [left; eauto|].
           destruct (decide (t0 = t)) as [->|Hne]; [left; eauto|].
           right. split; [exact Hp|]. apply unmarked_insert; assumption.
    + destruct (IH _ _ _ _ Hrun) as (new & -> & Hsub & Hnodup & Hiff).
      assert (Hm0 : marked m t0).
      { apply marked_default. destruct (default false (m !! t0)); [reflexivity|discriminate]. }
      exists new. split; [reflexivity|]. split; [constructor; exact Hsub|].
      split; [exact Hnodup|].
      intros t. rewrite passes_cons, Hiff. split.
      * intros [Hp Hnot]. tauto.
      * intros [[[v' Heq]|Hp] Hnot]; [|tauto].
        injection Heq as <- <-. contradiction.
Qed.

(** With every table's type marked, the loop changes nothing. *)
Lemma collectUnmigrated_all_marked (tables : list iface) :
  forall (m : gmap rtype bool) (acc : list iface),
    (forall x, In x tables -> exists t v, x = Val t v /\ marked m t) ->
    collectUnmigrated tables m acc = (m, Returns acc).
Proof.
  induction tables as [|table rest IH]; simpl; intros m acc Hall; [reflexivity|].
  destruct (Hall table (or_introl eq_refl)) as (t & v & -> & Hm). simpl.
  apply marked_default in Hm. rewrite Hm. simpl.
  apply IH. intros x Hx. apply Hall. right. exact Hx.
Qed.

(** A loop that meets a nil interface has done what the loop over the
    tables before it does, and nothing more. *)
Lemma collectUnmigrated_stops_at_nil (tables : list iface) :
  forall (m : gmap rtype bool) (acc : list iface),
    In nil_iface tables ->
    exists m' batch,
      collectUnmigrated (before_nil tables) m acc = (m', Returns batch) /\
      collectUnmigrated tables m acc
      = (m', Panics "reflect: call of reflect.Value.Type on zero Value").
Proof.
  induction tables as [|table rest IH]; simpl; intros m acc Hin; [contradiction|].
  destruct table as [|t0 v]; simpl.
  - eexists _, _. split; reflexivity.
  - destruct Hin as [Heq|Hin]; [discriminate|].
    destruct (negb (default false (m !! t0))); apply IH, Hin.
Qed.

Lemma set_migratedTables_same (c : connectionManager) :
  set_migratedTables c (migratedTables c) = c.
Proof. destruct c. reflexivity. Qed.

Lemma passes_app (l1 l2 : list iface) (t : rtype) :
  passes (l1 ++ l2) t <-> passes l1 t \/ passes l2 t.
Proof.
  unfold passes. split.
  - intros [v Hin]. apply in_app_or in Hin as [?|?]; eauto.
  - intros [[v Hin]|[v Hin]]; exists v; apply in_or_app; auto.
Qed.

Lemma type_is_passes (pre : list iface) (t : rtype) :
  existsb (type_is t) pre = true <-> passes pre t.
Proof.
  rewrite existsb_exists. split.
  - intros (x & Hin & Hx). destruct x as [|t' v]; simpl in Hx; [discriminate|].
    apply bool_decide_eq_true in Hx. subst t'. exists v. exact Hin.
  - intros [v Hin]. exists (Val t v). split; [exact Hin|].
    simpl. apply bool_decide_eq_true. reflexivity.
Qed.

Lemma marked_insert_iff (m : gmap rtype bool) (t t' : rtype) :
  marked (<[t := true]> m) t' <-> t = t' \/ marked m t'.
Proof.
  split.
  - intros Hm. destruct (decide (t = t')) as [->|Hne]; [left; reflexivity|].
    right. unfold marked in *. rewrite lookup_insert_ne in Hm; assumption.
  - intros [->|Hm]; [apply marked_insert_eq|apply marked_insert, Hm].
Qed.

(** The test of the loop, on a map that holds the marks of [m0] and of the
    tables [pre] already passed, is [first_unmarked m0 pre]. *)
Lemma first_unmarked_test (m0 m1 : gmap rtype bool) (pre : list iface) (t : rtype)
    (v : string) :
  (forall t', marked m1 t' <-> marked m0 t' \/ passes pre t') ->
  negb (default false (m1 !! t)) = first_unmarked m0 pre (Val t v).
Proof.
  intros Hinv. simpl. destruct (default false (m1 !! t)) eqn:H1; simpl.
  - apply marked_default, Hinv in H1 as [Hm|Hp].
    + apply marked_default in Hm. rewrite Hm. reflexivity.
    + apply type_is_passes in Hp. rewrite Hp. simpl. symmetry. apply andb_false_r.
  - assert (Hnot : ~ marked m1 t).
    { intros Hm. apply marked_default in Hm. congruence. }
    destruct (default false (m0 !! t)) eqn:H0.
    { destruct Hnot. apply Hinv. left. apply marked_default, H0. }
    destruct (existsb (type_is t) pre) eqn:Hex; [|reflexivity].
    destruct Hnot. apply Hinv. right. apply type_is_passes, Hex.
Qed.

(** The pending list is [pending_from]: each table is kept or dropped by
    what was marked before the call and by the tables passed before it. *)
Lemma collectUnmigrated_pending (tables : list iface) :
  forall (m0 m1 m' : gmap rtype bool) (pre acc batch : list iface),
    (forall t, marked m1 t <-> marked m0 t \/ passes pre t) ->
    collectUnmigrated tables m1 acc = (m', Returns batch) ->
    batch = acc ++ pending_from m0 pre tables.
Proof.
  induction tables as [|x rest IH]; simpl; intros m0 m1 m' pre acc batch Hinv Hrun.
  - injection Hrun as _ <-. symmetry. apply app_nil_r.
  - destruct x as [|t v]; [discriminate|].
    change (reflect_ValueOf_Type (Val t v)) with (Returns t) in Hrun.
    cbv iota in Hrun.
    rewrite (first_unmarked_test m0 m1 pre t v Hinv) in Hrun.
    destruct (first_unmarked m0 pre (Val t v)) eqn:Hfirst.
    + assert (Hinv' : forall t', marked (<[t := true]> m1) t'
                               <-> marked m0 t' \/ passes (pre ++ [Val t v]) t').
      { intros t'. rewrite marked_insert_iff, passes_app, passes_cons, Hinv.
        split.
        - intros [->|[Hm|Hp]]; [right; right; left; eauto|tauto|tauto].
        - intros [Hm|[Hp|[[v' Heq]|[v' []]]]]; [tauto|tauto|].
          injection Heq as -> _. left. reflexivity. }
      rewrite (IH m0 _ _ (pre ++ [Val t v]) _ _ Hinv' Hrun).
      rewrite <- app_assoc. reflexivity.
    + assert (Hinv' : forall t', marked m1 t'
                               <-> marked m0 t' \/ passes (pre ++ [Val t v]) t').
      { intros t'. rewrite passes_app, passes_cons. split.
        - intros Hm. apply Hinv in Hm. tauto.
        - intros [Hm|[Hp|[[v' Heq]|[v' []]]]]; [apply Hinv; tauto|apply Hinv; tauto|].
          injection Heq as -> _.
          rewrite <- (first_unmarked_test m0 m1 pre t' v Hinv) in Hfirst.
          apply marked_default.
          destruct (default false (m1 !! t')); [reflexivity|discriminate]. }
      rewrite (IH m0 _ _ (pre ++ [Val t v]) _ _ Hinv' Hrun). reflexivity.
Qed.

(** ** [AutoMigrate] *)

(** X1. On a manager with a handle, [AutoMigrate] reaches the sync engine
    exactly when no table is the nil interface.  With a nil table it panics
    in the loop and the engine is not called.  Without one the loop
    completes, the engine is called once, with one batch, and what
    [AutoMigrate] hands back is the engine's answer as it is. *)
Theorem AutoMigrate_returns_engine_answer (c : connectionManager) (w : list Event)
    (h : gorm_DB) (tables : list iface) :
  db c = Some h ->
  (In nil_iface tables ->
   exists c1 msg, AutoMigrate c w tables = (Panics msg, c1, w)) /\
  (~ In nil_iface tables ->
   exists batch c1,
     AutoMigrate c w tables
     = (Returns (DB_AutoMigrate w h batch), c1, w ++ [EvAutoMigrate h batch]) /\
     same_connection c c1).
Proof.
  intros Hdb. split.
  - intros Hnil.
    destruct (collectUnmigrated_nil tables (migratedTables c) [] Hnil) as [m' Hloop].
    unfold AutoMigrate. rewrite Hdb, Hloop. eauto.
  - intros Hnil.
    destruct (collectUnmigrated_total tables (migratedTables c) [] Hnil)
      as (m' & batch & Hloop).
    exists batch, (set_migratedTables c m').
    unfold AutoMigrate. rewrite Hdb, Hloop. split; [reflexivity|repeat split].
Qed.

(** X2. The batch that [AutoMigrate] hands to the sync engine is made of
    the tables, in the order passed, that are the first one passed of
    their type and whose type was not marked before the call.  So it is
    a subsequence of the arguments, holds at most one table of each type,
    and holds exactly the types passed that were not yet marked. *)
Theorem AutoMigrate_batch_shape (c c1 : connectionManager) (w w1 : list Event)
    (h : gorm_DB) (tables : list iface) (e : option error) :
  db c = Some h ->
  AutoMigrate c w tables = (Returns e, c1, w1) ->
  exists batch,
    w1 = w ++ [EvAutoMigrate h batch] /\
    batch = pending_from (migratedTables c) [] tables /\
    sublist batch tables /\
    NoDup (table_types batch) /\
    (forall t, passes batch t <-> passes tables t /\ ~ marked (migratedTables c) t).
Proof.
  intros Hdb Hcall.
  destruct (AutoMigrate_returns _ _ _ _ _ _ _ Hdb Hcall) as (batch & Hw & _ & Hloop & _).
  destruct (collectUnmigrated_shape _ _ _ _ _ Hloop) as (new & Hb & Hsub & Hnodup & Hiff).
  simpl in Hb. subst new. exists batch.
  split; [exact Hw|]. split; [|auto].
  apply (collectUnmigrated_pending _ (migratedTables c) _ _ [] [] _) in Hloop;
    [exact Hloop|].
  intros t. split; [tauto|]. intros [Hm|[v []]]. exact Hm.
Qed.

(** X3. After an [AutoMigrate] call that returned, the set of migrated
    types is the set before the call with the types passed set to true:
    every type passed is marked, and the entry of any other type is as it
    was. *)
Theorem AutoMigrate_marks_exactly (c c1 : connectionManager) (w w1 : list Event)
    (h : gorm_DB) (tables : list iface) (e : option error) :
  db c = Some h ->
  AutoMigrate c w tables = (Returns e, c1, w1) ->
  forall t,
    (passes tables t -> migratedTables c1 !! t = Some true) /\
    (~ passes tables t -> migratedTables c1 !! t = migratedTables c !! t).
Proof.
  intros Hdb Hcall t.
  destruct (AutoMigrate_returns _ _ _ _ _ _ _ Hdb Hcall) as (batch & _ & _ & Hloop & _ & Hall).
  split; [apply Hall|].
  apply (collectUnmigrated_untouched _ _ _ _ _ Hloop).
Qed.

(** X4. When every table passed has a type already marked, and also when
    no table is passed, [AutoMigrate] still calls the sync engine, with an
    empty batch, returns its answer, and leaves the manager as it was. *)
Theorem AutoMigrate_nothing_new (c : connectionManager) (w : list Event) (h : gorm_DB)
    (tables : list iface) :
  db c = Some h ->
  (forall x, In x tables -> exists t v, x = Val t v /\ marked (migratedTables c) t) ->
  AutoMigrate c w tables
  = (Returns (DB_AutoMigrate w h []), c, w ++ [EvAutoMigrate h []]).
Proof.
  intros Hdb Hall. unfold AutoMigrate.
  rewrite Hdb, (collectUnmigrated_all_marked _ _ _ Hall), set_migratedTables_same.
  reflexivity.
Qed.

(** X5. Repeating an [AutoMigrate] call that returned, with the same
    tables, changes nothing in the manager and hands the sync engine an
    empty batch, whatever the engine answered the first time. *)
Theorem AutoMigrate_twice (c c1 : connectionManager) (w w1 : list Event) (h : gorm_DB)
    (tables : list iface) (e : option error) :
  db c = Some h ->
  AutoMigrate c w tables = (Returns e, c1, w1) ->
  AutoMigrate c1 w1 tables
  = (Returns (DB_AutoMigrate w1 h []), c1, w1 ++ [EvAutoMigrate h []]).
Proof.
  intros Hdb Hcall.
  destruct (AutoMigrate_returns _ _ _ _ _ _ _ Hdb Hcall) as (batch & _ & _ & Hloop & _ & Hall).
  destruct (AutoMigrate_effect _ _ _ _ _ _ Hcall) as ((_ & _ & _ & Hdb1 & _) & _).
  rewrite Hdb in Hdb1.
  apply (AutoMigrate_nothing_new _ _ _ _ Hdb1).
  intros x Hx. destruct x as [|t v].
  - destruct (collectUnmigrated_nil tables (migratedTables c) [] Hx) as [m' Hpanic].
    rewrite Hpanic in Hloop. discriminate.
  - exists t, v. split; [reflexivity|]. apply Hall. exists v. exact Hx.
Qed.

(** X6. When [AutoMigrate] panics on a nil table, the types of the tables
    before the first nil are marked all the same and nothing else in the
    manager has changed; as the sync engine was not called, and as marked
    types are filtered, no call ever hands those tables' types to the
    engine. *)
Theorem AutoMigrate_panic_marks_prefix (c : connectionManager) (w : list Event)
    (h : gorm_DB) (tables : list iface) :
  db c = Some h ->
  In nil_iface tables ->
  exists c1 msg,
    AutoMigrate c w tables = (Panics msg, c1, w) /\
    same_connection c c1 /\
    (forall t,
        (passes (before_nil tables) t -> migratedTables c1 !! t = Some true) /\
        (~ passes (before_nil tables) t -> migratedTables c1 !! t = migratedTables c !! t)) /\
    forall ops rs c2 w2,
      run ops c1 w = (rs, c2, w2) ->
      exists evs,
        w2 = w ++ evs /\
        forall batch t,
          In batch (sync_batches evs) -> passes batch t -> ~ passes (before_nil tables) t.
Proof.
  intros Hdb Hnil.
  destruct (collectUnmigrated_stops_at_nil tables (migratedTables c) [] Hnil)
    as (m' & batch & Hprefix & Hpanic).
  destruct (collectUnmigrated_batch _ _ _ _ _ Hprefix) as (_ & _ & _ & _ & Hall).
  exists (set_migratedTables c m'), "reflect: call of reflect.Value.Type on zero Value".
  split; [unfold AutoMigrate; rewrite Hdb, Hpanic; reflexivity|].
  split; [repeat split|]. split.
  - intros t. simpl. split; [apply Hall|].
    apply (collectUnmigrated_untouched _ _ _ _ _ Hprefix).
  - intros ops rs c2 w2 Hrun.
    destruct (run_effect _ _ _ _ _ _ Hrun) as (_ & _ & evs & -> & Hfresh).
    exists evs. split; [reflexivity|].
    intros b t Hin Hp Hbefore. apply (Hfresh b t Hin Hp). simpl. apply Hall, Hbefore.
Qed.

(** ** [AutoMigrateOrWarn] *)

(** X7. [AutoMigrateOrWarn] does to the manager and to the sync engine what
    [AutoMigrate] does, and never hands an error back: when [AutoMigrate]
    returns an error it writes one line, the error's text and a newline,
    and otherwise none.  On a manager with a nil handle that line is the
    text of [ErrConnectionClosed] and nothing else happens. *)
Theorem AutoMigrateOrWarn_logs_instead (c c1 : connectionManager) (w w1 : list Event)
    (tables : list iface) (r : outcome (option error)) :
  AutoMigrate c w tables = (r, c1, w1) ->
  exists o w2,
    AutoMigrateOrWarn c w tables = (o, c1, w2) /\
    sync_batches w2 = sync_batches w1 /\
    (forall msg, o = Panics msg <-> r = Panics msg) /\
    printed w2 = printed w1 ++ match r with
                               | Returns (Some err) => [String.append (Error err) (String "010"%char "")]
                               | _ => []
                               end /\
    (db c = None ->
     c1 = c /\
     w2 = w ++ [EvPrintf (String.append "db connection closed" (String "010"%char ""))]).
Proof.
  intros Hcall. unfold AutoMigrateOrWarn. rewrite Hcall.
  destruct r as [[err|]|msg].
  - eexists _, _. split; [reflexivity|].
    rewrite sync_batches_app, printed_app. simpl. rewrite app_nil_r.
    split; [reflexivity|]. split; [split; discriminate|]. split; [reflexivity|].
    intros Hdb. unfold AutoMigrate in Hcall. rewrite Hdb in Hcall.
    injection Hcall as <- <- <-. split; reflexivity.
  - eexists _, _. split; [reflexivity|]. split; [reflexivity|].
    split; [split; discriminate|]. rewrite app_nil_r. split; [reflexivity|].
    intros Hdb. unfold AutoMigrate in Hcall. rewrite Hdb in Hcall. discriminate.
  - eexists _, _. split; [reflexivity|]. split; [reflexivity|].
    split; [split; intros [= ->]; reflexivity|]. rewrite app_nil_r. split; [reflexivity|].
    intros Hdb. unfold AutoMigrate in Hcall. rewrite Hdb in Hcall. discriminate.
Qed.

(** ** Constructed managers *)


(** X9. After construction no call changes the handle, the configuration,
    the connection string, the dialector or the gate, and no call sets a
    pool limit: the pool is as construction left it, unset for good if
    the first attempt failed. *)
Theorem connection_fixed_after_construction (connStr0 : string) (d : option Dialector)
    (cfg : option gorm_Config) (m m1 : connectionManager) (err : option error)
    (w0 w1 : list Event) (ops : list Op) (rs : list Reply) :
  NewBaseConnectionManager connStr0 d cfg = (m, err, w0) ->
  run ops m w0 = (rs, m1, w1) ->
  same_connection m m1 /\
  pool_calls w1 = pool_calls w0 /\
  (err <> None -> pool_calls w1 = []).
Proof.
  intros Hnew Hrun.
  destruct (NewBaseConnectionManager_facts _ _ _ _ _ _ Hnew)
    as (Hgate & _ & _ & _ & _ & _ & Herr & _).
  destruct (run_closed_gate _ _ _ _ _ _ Hgate Hrun) as (Hsame & (evs & -> & _ & Hpool) & _).
  split; [exact Hsame|]. rewrite pool_calls_app, Hpool, app_nil_r.
  split; [reflexivity|]. intros Hfail.
  revert Hnew. unfold NewBaseConnectionManager. simpl.
  assert (Hcfg : match cfg with
                 | Some _ => mkManager d cfg connStr0 None false ∅
                 | None => mkManager d (Some defaultConfig) connStr0 None false ∅
                 end
                 = mkManager d (Some (config_or_default cfg defaultConfig)) connStr0
                     None false ∅) by (destruct cfg; reflexivity).
  rewrite Hcfg. clear Hcfg. unfold GetConnection, execOnceOnlyFunc. simpl.
  destruct (open_result _) as [h|h e].
  - destruct (DB_DB _ h) as [sqlDB|e]; intros [= <- <- <-]; [contradiction|reflexivity].
  - intros [= <- <- <-]. reflexivity.
Qed.

(** ** Where the code departs from its comments *)

(** C4, as the code has it.  [Dialect()] is [c.config.Name()], and the
    package never stores the dialector it is given in that configuration.
    When [gorm.Open] leaves the caller's configuration as it was, a manager
    built with a nil configuration panics in [Dialect()] whatever dialector
    was supplied, and a manager built with a configuration that embeds a
    dialector answers with that one's name, not with the name of the
    dialector supplied.  [ConnString()] returns the string supplied. *)
Theorem Dialect_misses_supplied_dialector (connStr0 : string) (d : option Dialector)
    (cfg : option gorm_Config) (m : connectionManager) (err : option error)
    (w0 : list Event) :
  NewBaseConnectionManager connStr0 d cfg = (m, err, w0) ->
  open_config (gorm_Open [] d (Some (config_or_default cfg defaultConfig)))
  = Some (config_or_default cfg defaultConfig) ->
  (cfg = None -> Dialect m = Panics nil_dereference) /\
  (forall k d2, cfg = Some k -> cfg_Dialector k = Some d2 ->
                Dialect m = Returns (Name d2)) /\
  ConnString m = connStr0.
Proof.
  intros Hnew Hkept.
  destruct (NewBaseConnectionManager_facts _ _ _ _ _ _ Hnew)
    as (_ & Hstr & _ & _ & _ & Hcfg & _).
  rewrite Hkept in Hcfg. simpl in Hcfg. unfold Dialect, ConnString. rewrite Hcfg.
  split; [|split; [|exact Hstr]].
  - intros ->. reflexivity.
  - intros k d2 -> Hk. simpl. rewrite Hk. reflexivity.
Qed.

(** C5, as the code has it.  The guard of [AutoMigrate] tests the handle,
    and the closure stores whatever handle [gorm.Open] hands back, also
    with an error.  On a manager whose construction failed but left a
    handle, [AutoMigrate] does not answer [ErrConnectionClosed] from the
    guard: it marks every type passed, hands the sync engine a batch with
    those types, and returns the engine's answer. *)
Theorem AutoMigrate_guard_misses_failed_open (connStr0 : string) (d : option Dialector)
    (cfg : option gorm_Config) (m : connectionManager) (e : error) (w0 : list Event)
    (h : gorm_DB) (tables : list iface) :
  NewBaseConnectionManager connStr0 d cfg = (m, Some e, w0) ->
  db m = Some h ->
  ~ In nil_iface tables ->
  exists batch c1,
    AutoMigrate m w0 tables
    = (Returns (DB_AutoMigrate w0 h batch), c1, w0 ++ [EvAutoMigrate h batch]) /\
    sync_batches (w0 ++ [EvAutoMigrate h batch]) = sync_batches w0 ++ [batch] /\
    (forall t, passes batch t <-> passes tables t) /\
    (forall t, passes tables t ->
               ~ marked (migratedTables m) t /\ marked (migratedTables c1) t).
Proof.
  intros Hnew Hdb Hnil.
  destruct (NewBaseConnectionManager_facts _ _ _ _ _ _ Hnew) as (_ & _ & _ & Hempty & _).
  destruct (collectUnmigrated_total tables (migratedTables m) [] Hnil)
    as (m' & batch & Hloop).
  destruct (collectUnmigrated_batch _ _ _ _ _ Hloop) as (new & Hb & _ & _ & Hall).
  destruct (collectUnmigrated_shape _ _ _ _ _ Hloop) as (new' & Hb' & _ & _ & Hiff).
  simpl in Hb, Hb'. subst new new'.
  assert (Hfree : forall t, ~ marked (migratedTables m) t).
  { intros t. rewrite Hempty. unfold marked. rewrite lookup_empty. discriminate. }
  exists batch, (set_migratedTables m m').
  unfold AutoMigrate. rewrite Hdb, Hloop. split; [reflexivity|].
  split; [rewrite sync_batches_app; reflexivity|]. split.
  - intros t. rewrite Hiff. split; [tauto|]. intros Hp. split; [exact Hp|apply Hfree].
  - intros t Hp. split; [apply Hfree|apply Hall, Hp].
Qed.

End Further.

(** ** Concrete runs of the further properties *)

Lemma AutoMigrate_returns_engine_answer_witness :
  db ready_manager = Some 1%positive /\
  In nil_iface [User; nil_iface] /\
  ~ In nil_iface [User; Order] /\
  (exists c1 msg,
      AutoMigrate (G := failing_sync) ready_manager ready_log [User; nil_iface]
      = (Panics msg, c1, ready_log)) /\
  exists batch c1,
    AutoMigrate (G := failing_sync) ready_manager ready_log [User; Order]
    = (Returns (DB_AutoMigrate (Gorm := failing_sync) ready_log 1%positive batch), c1,
       ready_log ++ [EvAutoMigrate 1%positive batch]).
Proof.
  assert (Hdb : db ready_manager = Some 1%positive) by reflexivity.
  assert (Hnil : In nil_iface [User; nil_iface]) by (right; left; reflexivity).
  assert (Hnone : ~ In nil_iface [User; Order]).
  { intros [H|[H|[]]]; discriminate. }
  split; [exact Hdb|]. split; [exact Hnil|]. split; [exact Hnone|]. split.
  - exact (proj1 (AutoMigrate_returns_engine_answer (G := failing_sync) ready_manager
                    ready_log 1%positive [User; nil_iface] Hdb) Hnil).
  - destruct (proj2 (AutoMigrate_returns_engine_answer (G := failing_sync) ready_manager
                       ready_log 1%positive [User; Order] Hdb) Hnone)
      as (batch & c1 & Hcall & _).
    exists batch, c1. exact Hcall.
Defined.

Lemma AutoMigrate_batch_shape_witness :
  db (with_migrated ready_manager ["*models.Order"]) = Some 1%positive /\
  AutoMigrate (G := reachable) (with_migrated ready_manager ["*models.Order"]) ready_log
    [User; Order; Val "*models.User" "&User{ID: 7}"; Invoice; User]
  = (Returns None,
     with_migrated ready_manager ["*models.Order"; "*models.User"; "*models.Invoice"],
     ready_log ++ [EvAutoMigrate 1%positive [User; Invoice]]) /\
  pending_from (migratedTables (with_migrated ready_manager ["*models.Order"])) []
    [User; Order; Val "*models.User" "&User{ID: 7}"; Invoice; User]
  = [User; Invoice] /\
  exists batch,
    ready_log ++ [EvAutoMigrate 1%positive [User; Invoice]]
    = ready_log ++ [EvAutoMigrate 1%positive batch] /\
    batch = [User; Invoice] /\
    sublist batch [User; Order; Val "*models.User" "&User{ID: 7}"; Invoice; User] /\
    NoDup (table_types batch).
Proof.
  assert (Hdb : db (with_migrated ready_manager ["*models.Order"]) = Some 1%positive)
    by reflexivity.
  assert (Hcall : AutoMigrate (G := reachable)
                    (with_migrated ready_manager ["*models.Order"]) ready_log
                    [User; Order; Val "*models.User" "&User{ID: 7}"; Invoice; User]
                  = (Returns None,
                     with_migrated ready_manager
                       ["*models.Order"; "*models.User"; "*models.Invoice"],
                     ready_log ++ [EvAutoMigrate 1%positive [User; Invoice]]))
    by (vm_compute; reflexivity).
  assert (Hpending : pending_from
                       (migratedTables (with_migrated ready_manager ["*models.Order"])) []
                       [User; Order; Val "*models.User" "&User{ID: 7}"; Invoice; User]
                     = [User; Invoice]) by (vm_compute; reflexivity).
  split; [exact Hdb|]. split; [exact Hcall|]. split; [exact Hpending|].
  destruct (AutoMigrate_batch_shape (G := reachable) _ _ _ _ _ _ _ Hdb Hcall)
    as (batch & Hw & Hb & Hsub & Hnodup & _).
  exists batch. rewrite Hpending in Hb. repeat split; assumption.
Defined.

Lemma AutoMigrate_marks_exactly_witness :
  db ready_manager = Some 1%positive /\
  AutoMigrate (G := failing_sync) ready_manager ready_log [User; Order]
  = (Returns (Some denied),
     with_migrated ready_manager ["*models.User"; "*models.Order"],
     ready_log ++ [EvAutoMigrate 1%positive [User; Order]]) /\
  (passes [User; Order] "*models.Order" ->
   migratedTables (with_migrated ready_manager ["*models.User"; "*models.Order"])
     !! "*models.Order" = Some true) /\
  (~ passes [User; Order] "*models.Invoice" ->
   migratedTables (with_migrated ready_manager ["*models.User"; "*models.Order"])
     !! "*models.Invoice" = migratedTables ready_manager !! "*models.Invoice").
Proof.
  assert (Hdb : db ready_manager = Some 1%positive) by reflexivity.
  assert (Hcall : AutoMigrate (G := failing_sync) ready_manager ready_log [User; Order]
                  = (Returns (Some denied),
                     with_migrated ready_manager ["*models.User"; "*models.Order"],
                     ready_log ++ [EvAutoMigrate 1%positive [User; Order]]))
    by (vm_compute; reflexivity).
  split; [exact Hdb|]. split; [exact Hcall|].
  split.
  - apply (AutoMigrate_marks_exactly (G := failing_sync) _ _ _ _ _ _ _ Hdb Hcall).
  - apply (AutoMigrate_marks_exactly (G := failing_sync) _ _ _ _ _ _ _ Hdb Hcall).
Defined.

Lemma AutoMigrate_nothing_new_witness :
  db (with_migrated ready_manager ["*models.User"]) = Some 1%positive /\
  (forall x, In x [User; User] ->
             exists t v, x = Val t v /\
                         marked (migratedTables (with_migrated ready_manager ["*models.User"])) t) /\
  AutoMigrate (G := reachable) (with_migrated ready_manager ["*models.User"]) ready_log
    [User; User]
  = (Returns None, with_migrated ready_manager ["*models.User"],
     ready_log ++ [EvAutoMigrate 1%positive []]) /\
  AutoMigrate (G := reachable) ready_manager ready_log []
  = (Returns None, ready_manager, ready_log ++ [EvAutoMigrate 1%positive []]).
Proof.
  assert (Hdb : db (with_migrated ready_manager ["*models.User"]) = Some 1%positive)
    by reflexivity.
  assert (Hall : forall x, In x [User; User] ->
                   exists t v, x = Val t v /\
                     marked (migratedTables (with_migrated ready_manager ["*models.User"])) t).
  { intros x [<-|[<-|[]]]; exists "*models.User", "&User{}";
      (split; [reflexivity|apply lookup_insert_eq]). }
  split; [exact Hdb|]. split; [exact Hall|]. split.
  - exact (AutoMigrate_nothing_new (G := reachable) _ ready_log _ _ Hdb Hall).
  - apply (AutoMigrate_nothing_new (G := reachable) ready_manager ready_log 1%positive []);
      [reflexivity|intros x []].
Defined.

Lemma AutoMigrate_twice_witness :
  db ready_manager = Some 1%positive /\
  AutoMigrate (G := failing_sync) ready_manager ready_log [User; Order]
  = (Returns (Some denied),
     with_migrated ready_manager ["*models.User"; "*models.Order"],
     ready_log ++ [EvAutoMigrate 1%positive [User; Order]]) /\
  AutoMigrate (G := failing_sync)
    (with_migrated ready_manager ["*models.User"; "*models.Order"])
    (ready_log ++ [EvAutoMigrate 1%positive [User; Order]]) [User; Order]
  = (Returns (Some denied),
     with_migrated ready_manager ["*models.User"; "*models.Order"],
     (ready_log ++ [EvAutoMigrate 1%positive [User; Order]])
       ++ [EvAutoMigrate 1%positive []]).
Proof.
  assert (Hdb : db ready_manager = Some 1%positive) by reflexivity.
  assert (Hcall : AutoMigrate (G := failing_sync) ready_manager ready_log [User; Order]
                  = (Returns (Some denied),
                     with_migrated ready_manager ["*models.User"; "*models.Order"],
                     ready_log ++ [EvAutoMigrate 1%positive [User; Order]]))
    by (vm_compute; reflexivity).
  split; [exact Hdb|]. split; [exact Hcall|].
  exact (AutoMigrate_twice (G := failing_sync) _ _ _ _ _ _ _ Hdb Hcall).
Defined.

Lemma AutoMigrate_panic_marks_prefix_witness :
  db ready_manager = Some 1%positive /\
  In nil_iface [User; nil_iface; Order] /\
  before_nil [User; nil_iface; Order] = [User] /\
  exists c1 msg,
    AutoMigrate (G := reachable) ready_manager ready_log [User; nil_iface; Order]
    = (Panics msg, c1, ready_log) /\
    migratedTables c1 !! "*models.User" = Some true /\
    migratedTables c1 !! "*models.Order" = None /\
    sync_batches
      (snd (run (G := reachable) [OpAutoMigrate [User; Order]] c1 ready_log))
    = [[Order]].
Proof.
  assert (Hdb : db ready_manager = Some 1%positive) by reflexivity.
  assert (Hnil : In nil_iface [User; nil_iface; Order]) by (right; left; reflexivity).
  split; [exact Hdb|]. split; [exact Hnil|]. split; [reflexivity|].
  destruct (AutoMigrate_panic_marks_prefix (G := reachable) ready_manager ready_log
              1%positive [User; nil_iface; Order] Hdb Hnil)
    as (c1 & msg & Hcall & _ & Hmarks & _).
  exists c1, msg. split; [exact Hcall|].
  assert (Hc1 : c1 = with_migrated ready_manager ["*models.User"]).
  { assert (Hrun : AutoMigrate (G := reachable) ready_manager ready_log
                     [User; nil_iface; Order]
                   = (Panics "reflect: call of reflect.Value.Type on zero Value",
                      with_migrated ready_manager ["*models.User"], ready_log))
      by (vm_compute; reflexivity).
    rewrite Hrun in Hcall. injection Hcall as _ <-. reflexivity. }
  split; [|split].
  - apply Hmarks. exists "&User{}". left. reflexivity.
  - subst c1. reflexivity.
  - subst c1. vm_compute. reflexivity.
Defined.

Lemma AutoMigrateOrWarn_logs_instead_witness :
  AutoMigrate (G := failing_sync) ready_manager ready_log [User]
  = (Returns (Some denied), with_migrated ready_manager ["*models.User"],
     ready_log ++ [EvAutoMigrate 1%positive [User]]) /\
  AutoMigrate (G := unopened) unopened_manager refused_log [User]
  = (Returns (Some ErrConnectionClosed), unopened_manager, refused_log) /\
  (exists o w2,
      AutoMigrateOrWarn (G := failing_sync) ready_manager ready_log [User]
      = (o, with_migrated ready_manager ["*models.User"], w2) /\
      printed w2 = [String.append (Error denied) (String "010"%char "")]) /\
  exists o w2,
    AutoMigrateOrWarn (G := unopened) unopened_manager refused_log [User]
    = (o, unopened_manager, w2) /\
    w2 = refused_log
         ++ [EvPrintf (String.append "db connection closed" (String "010"%char ""))].
Proof.
  assert (H1 : AutoMigrate (G := failing_sync) ready_manager ready_log [User]
               = (Returns (Some denied), with_migrated ready_manager ["*models.User"],
                  ready_log ++ [EvAutoMigrate 1%positive [User]]))
    by (vm_compute; reflexivity).
  assert (H2 : AutoMigrate (G := unopened) unopened_manager refused_log [User]
               = (Returns (Some ErrConnectionClosed), unopened_manager, refused_log))
    by reflexivity.
  split; [exact H1|]. split; [exact H2|]. split.
  - destruct (AutoMigrateOrWarn_logs_instead (G := failing_sync) _ _ _ _ _ _ H1)
      as (o & w2 & Hcall & _ & _ & Hprinted & _).
    exists o, w2. split; [exact Hcall|exact Hprinted].
  - destruct (AutoMigrateOrWarn_logs_instead (G := unopened) _ _ _ _ _ _ H2)
      as (o & w2 & Hcall & _ & _ & _ & Hclosed).
    exists o, w2. split; [exact Hcall|]. apply (Hclosed eq_refl).
Defined.


Lemma connection_fixed_after_construction_witness :
  NewBaseConnectionManager (G := unreachable) dsn (Some postgres) None
  = (refused_manager, Some refused, refused_log) /\
  run (G := unreachable) [OpGetConnection; OpAutoMigrate [User]; OpGetConnection]
    refused_manager refused_log
  = ([RConn (Some 1%positive) None; RMigrate (Returns None);
      RConn (Some 1%positive) None],
     with_migrated refused_manager ["*models.User"],
     refused_log ++ [EvAutoMigrate 1%positive [User]]) /\
  Some refused <> None /\
  same_connection refused_manager (with_migrated refused_manager ["*models.User"]) /\
  pool_calls (refused_log ++ [EvAutoMigrate 1%positive [User]]) = [].
Proof.
  assert (Hnew : NewBaseConnectionManager (G := unreachable) dsn (Some postgres) None
                 = (refused_manager, Some refused, refused_log)) by reflexivity.
  assert (Hrun : run (G := unreachable)
                   [OpGetConnection; OpAutoMigrate [User]; OpGetConnection]
                   refused_manager refused_log
                 = ([RConn (Some 1%positive) None; RMigrate (Returns None);
                     RConn (Some 1%positive) None],
                    with_migrated refused_manager ["*models.User"],
                    refused_log ++ [EvAutoMigrate 1%positive [User]]))
    by (vm_compute; reflexivity).
  assert (Hfail : Some refused <> None) by discriminate.
  split; [exact Hnew|]. split; [exact Hrun|]. split; [exact Hfail|].
  destruct (connection_fixed_after_construction (G := unreachable) _ _ _ _ _ _ _ _ _ _
              Hnew Hrun) as (Hsame & _ & Hpool).
  split; [exact Hsame|apply Hpool, Hfail].
Defined.

Lemma Dialect_misses_supplied_dialector_witness :
  NewBaseConnectionManager (G := reachable) dsn (Some postgres) None
  = (ready_manager, None, ready_log) /\
  open_config (gorm_Open (Gorm := reachable) [] (Some postgres) (Some defaultConfig))
  = Some defaultConfig /\
  Dialect ready_manager = Panics nil_dereference /\
  Dialect (fst (fst (NewBaseConnectionManager (G := reachable) dsn (Some postgres)
                       (Some (mkConfig None (Some mysql) "")))))
  = Returns "mysql" /\
  ConnString ready_manager = dsn.
Proof.
  assert (Hnew : NewBaseConnectionManager (G := reachable) dsn (Some postgres) None
                 = (ready_manager, None, ready_log)) by reflexivity.
  assert (Hkept : open_config (gorm_Open (Gorm := reachable) [] (Some postgres)
                                 (Some (config_or_default None defaultConfig)))
                  = Some (config_or_default None defaultConfig)) by reflexivity.
  destruct (Dialect_misses_supplied_dialector (G := reachable) _ _ _ _ _ _ Hnew Hkept)
    as (Hnil & _ & Hstr).
  split; [exact Hnew|]. split; [exact Hkept|]. split; [exact (Hnil eq_refl)|].
  split; [|exact Hstr].
  destruct (NewBaseConnectionManager (G := reachable) dsn (Some postgres)
              (Some (mkConfig None (Some mysql) ""))) as [[m2 e2] w2] eqn:Hnew2.
  assert (Hkept2 : open_config (gorm_Open (Gorm := reachable) [] (Some postgres)
                      (Some (config_or_default (Some (mkConfig None (Some mysql) ""))
                               defaultConfig)))
                   = Some (config_or_default (Some (mkConfig None (Some mysql) ""))
                             defaultConfig)) by reflexivity.
  destruct (Dialect_misses_supplied_dialector (G := reachable) _ _ _ _ _ _ Hnew2 Hkept2)
    as (_ & Hother & _).
  exact (Hother _ mysql eq_refl eq_refl).
Defined.

Lemma AutoMigrate_guard_misses_failed_open_witness :
  NewBaseConnectionManager (G := unreachable) dsn (Some postgres) None
  = (refused_manager, Some refused, refused_log) /\
  db refused_manager = Some 1%positive /\
  ~ In nil_iface [User] /\
  AutoMigrate (G := unreachable) refused_manager refused_log [User]
  = (Returns None, with_migrated refused_manager ["*models.User"],
     refused_log ++ [EvAutoMigrate 1%positive [User]]) /\
  exists batch c1,
    AutoMigrate (G := unreachable) refused_manager refused_log [User]
    = (Returns (DB_AutoMigrate (Gorm := unreachable) refused_log 1%positive batch), c1,
       refused_log ++ [EvAutoMigrate 1%positive batch]) /\
    marked (migratedTables c1) "*models.User".
Proof.
  assert (Hnew : NewBaseConnectionManager (G := unreachable) dsn (Some postgres) None
                 = (refused_manager, Some refused, refused_log)) by reflexivity.
  assert (Hdb : db refused_manager = Some 1%positive) by reflexivity.
  assert (Hnone : ~ In nil_iface [User]).
  { intros [H|[]]; discriminate. }
  split; [exact Hnew|]. split; [exact Hdb|]. split; [exact Hnone|].
  split; [vm_compute; reflexivity|].
  destruct (AutoMigrate_guard_misses_failed_open (G := unreachable) _ _ _ _ _ _ _ [User]
              Hnew Hdb Hnone) as (batch & c1 & Hcall & _ & _ & Hmarks).
  exists batch, c1. split; [exact Hcall|].
  apply Hmarks. exists "&User{}". left. reflexivity.
Defined.

End connection.
